(** * Cynaps3 OpenClaw plugin: request/response client core

    A shallow embedding of the plugin's client core and of the tool handlers
    built on it:

    - [src/core/pick.ts]        the parameter sanitizer [pick];
    - [src/core/errors.ts]      [CynapsApiError] and [wrapError];
    - [src/core/types.ts]       [isConfirmationResponse];
    - [src/core/result.ts]      [jsonResult];
    - [src/core/api-client.ts]  the client: its constructor, [fromContext],
      [buildHeaders], [call], [rpc], [query], [parseRetryAfter];
    - [src/core/config.ts]      [parseConfig] and [getString];
    - [src/tools/_registry.ts]  [registerAllTools];
    - [src/commands/status.ts]  the status command and [formatStatus];
    - [src/tools/*.ts]          the handlers of the preflight, library,
      write, project, generate and content tools.

    JavaScript values are a tree type; exceptions are an explicit result
    type; the network and the timer are an event log threaded through a
    small monad, with the backend's answers supplied by an environment. *)

From Stdlib Require Import ZArith QArith String Ascii List Bool Lia.
From stdpp Require Import base decidable option list gmap strings pretty.

Set Default Proof Using "Type".
Set Warnings "-register-all,-clear-no-such-hyp".
Local Open Scope string_scope.
Local Open Scope list_scope.

(** ** JavaScript values *)

Module Js.

(** A number is the exact value of its decimal literal; [NaN] and the
    infinities cannot come out of a JSON document and are left out. *)
Inductive Val : Type :=
  | VUndef
  | VNull
  | VBool (b : bool)
  | VNum (q : Q)
  | VStr (s : string)
  | VArr (xs : list Val)
  | VObj (fields : list (string * Val)).

(** A plain object, as a record of data: its own properties in insertion
    order.  [obj_get] and [obj_set] below read and write own properties;
    [Proto] has property access with the properties inherited from
    [Object.prototype]. *)
Abbreviation Obj := (list (string * Val)).

(** [obj[k]] on a plain object: [undefined] when [k] is not a property. *)
Fixpoint obj_get (o : Obj) (k : string) : Val :=
  match o with
  | [] => VUndef
  | (k', v) :: o' => if String.eqb k' k then v else obj_get o' k
  end.

(** [obj[k] = v]: an existing property keeps its place, a new one is
    appended. *)
Fixpoint obj_set (o : Obj) (k : string) (v : Val) : Obj :=
  match o with
  | [] => [(k, v)]
  | (k', v') :: o' =>
      if String.eqb k' k then (k', v) :: o' else (k', v') :: obj_set o' k v
  end.

(** [Object.keys(obj)] *)
Definition obj_keys (o : Obj) : list string := map fst o.

Definition is_undefined (v : Val) : bool :=
  match v with VUndef => true | _ => false end.

Definition is_nullish (v : Val) : bool :=
  match v with VUndef | VNull => true | _ => false end.

(** [v === true] *)
Definition is_true (v : Val) : bool :=
  match v with VBool true => true | _ => false end.

(** [v === s] for a string literal [s] *)
Definition is_string (v : Val) (s : string) : bool :=
  match v with VStr s' => String.eqb s' s | _ => false end.

(** ToBoolean *)
Definition truthy (v : Val) : bool :=
  match v with
  | VUndef | VNull => false
  | VBool b => b
  | VNum q => negb (Qeq_bool q 0)
  | VStr s => negb (String.eqb s "")
  | VArr _ | VObj _ => true
  end.

(** [a || b] and [a ?? b] *)
Definition or_else (a b : Val) : Val := if truthy a then a else b.
Definition nullish_else (a b : Val) : Val := if is_nullish a then b else a.

(** *** Strings *)

(** [hay.includes(needle)] *)
Fixpoint includes (needle hay : string) : bool :=
  if String.prefix needle hay then true
  else match hay with
       | EmptyString => false
       | String _ hay' => includes needle hay'
       end.

Definition digit_of (a : ascii) : option Z :=
  let n := Z.of_N (N_of_ascii a) in
  if ((48 <=? n) && (n <=? 57))%Z then Some (n - 48)%Z else None.

(** Space, tab, line feed, vertical tab, form feed, carriage return. *)
Definition is_space (a : ascii) : bool :=
  let n := Z.of_N (N_of_ascii a) in
  ((n =? 32) || ((9 <=? n) && (n <=? 13)))%Z.

Fixpoint skip_spaces (s : string) : string :=
  match s with
  | String a s' => if is_space a then skip_spaces s' else s
  | EmptyString => EmptyString
  end.

(** The longest prefix of decimal digits; [acc] is [None] until a digit has
    been read. *)
Fixpoint leading_digits (s : string) (acc : option Z) : option Z :=
  match s with
  | String a s' =>
      match digit_of a with
      | Some d => leading_digits s' (Some (10 * default 0 acc + d))%Z
      | None => acc
      end
  | EmptyString => acc
  end.

(** [parseInt(s, 10)]: leading white space, an optional sign and the longest
    run of digits; [None] stands for [NaN]. *)
Definition parseInt (s : string) : option Z :=
  match skip_spaces s with
  | String "-" s' => Z.opp <$> leading_digits s' None
  | String "+" s' => leading_digits s' None
  | s' => leading_digits s' None
  end.

(** Digits up to the end of the string, trailing white space allowed. *)
Fixpoint only_digits (s : string) (acc : option Z) : option Z :=
  match s with
  | String a s' =>
      match digit_of a with
      | Some d => only_digits s' (Some (10 * default 0 acc + d))%Z
      | None =>
          match skip_spaces s with
          | EmptyString => acc
          | _ => None
          end
      end
  | EmptyString => acc
  end.

(** ToNumber on a string holding a decimal integer literal; the empty
    string is [0].  Other notations (fractions, exponents, hexadecimal)
    are read as [NaN] here. *)
Definition string_to_number (s : string) : option Q :=
  match skip_spaces s with
  | EmptyString => Some 0%Q
  | String "-" s' => (fun z => inject_Z (- z)) <$> only_digits s' None
  | String "+" s' => inject_Z <$> only_digits s' None
  | s' => inject_Z <$> only_digits s' None
  end.

Fixpoint fraction_digits (fuel : nat) (r d : Z) : string :=
  match fuel with
  | O => ""
  | S fuel' =>
      if (r =? 0)%Z then ""
      else pretty ((r * 10) / d)%Z +:+ fraction_digits fuel' ((r * 10) mod d)%Z d
  end.

(** Number to string: the plain decimal expansion, as JavaScript prints
    numbers of moderate size written with a few significant digits. *)
Definition number_to_string (q : Q) : string :=
  let n := Qnum q in
  let d := Z.pos (Qden q) in
  let a := Z.abs n in
  (if (n <? 0)%Z then "-" else "")
    +:+ pretty (a / d)%Z
    +:+ (if (a mod d =? 0)%Z then "" else "." +:+ fraction_digits 20 (a mod d)%Z d).

(** ToString, as [String(v)] and template literals apply it.  An array is
    joined with commas, [null] and [undefined] elements printing empty. *)
Fixpoint to_string (v : Val) : string :=
  match v with
  | VUndef => "undefined"
  | VNull => "null"
  | VBool true => "true"
  | VBool false => "false"
  | VNum q => number_to_string q
  | VStr s => s
  | VArr xs =>
      (fix join (l : list Val) : string :=
         match l with
         | [] => ""
         | x :: rest =>
             (if is_nullish x then "" else to_string x)
               +:+ match rest with [] => "" | _ => "," +:+ join rest end
         end) xs
  | VObj _ => "[object Object]"
  end.

(** ToNumber; [None] stands for [NaN]. *)
Definition to_number (v : Val) : option Q :=
  match v with
  | VUndef => None
  | VNull => Some 0%Q
  | VBool b => Some (if b then 1%Q else 0%Q)
  | VNum q => Some q
  | VStr s => string_to_number s
  | VArr _ | VObj _ => string_to_number (to_string v)
  end.

(** [v > 0] *)
Definition gt_zero (v : Val) : bool :=
  match to_number v with
  | Some q => negb (Qle_bool q 0)
  | None => false
  end.

End Js.
Export Js.

(** ** src/core/errors.ts *)

Module Errors.

(** The typed error.  [code] and [errorId] hold whatever the error body
    carried ([undefined] when absent); [status] is an HTTP status, [0] for
    transport faults. *)
Record CynapsApiError : Type := new {
  message : string;
  status : Z;
  code : Val;
  errorId : Val;
}.

Definition isClientError (e : CynapsApiError) : bool :=
  ((400 <=? status e) && (status e <? 500))%Z.

Definition isServerError (e : CynapsApiError) : bool :=
  (500 <=? status e)%Z.

Definition isAuthError (e : CynapsApiError) : bool :=
  ((status e =? 401) || (status e =? 403))%Z.

Definition isRateLimited (e : CynapsApiError) : bool :=
  (status e =? 429)%Z.

Definition AUTH_MESSAGE : string :=
  "Having trouble connecting — try again in a moment.".

Definition SERVER_MESSAGE : string :=
  "Something went wrong on our end. Please try again.".

Definition userMessage (e : CynapsApiError) : string :=
  if isAuthError e then AUTH_MESSAGE
  else if isRateLimited e then message e
  else if isServerError e then SERVER_MESSAGE
  else message e.

(** What a [throw] can carry, as [instanceof] tells the cases apart: a typed
    error, any other [Error] (with its message), or a value that is no
    [Error] at all. *)
Inductive Thrown : Type :=
  | TApi (e : CynapsApiError)
  | TError (msg : string)
  | TOther (v : Val).

Definition wrapError (err : Thrown) : CynapsApiError :=
  match err with
  | TApi e => e
  | TError msg => new msg 500 (VStr "PLUGIN_ERROR") VUndef
  | TOther v => new (to_string v) 500 (VStr "UNKNOWN_ERROR") VUndef
  end.

(** The outcome of an expression that may throw. *)
Inductive Result (A : Type) : Type :=
  | Ok (a : A)
  | Throw (t : Thrown).
Arguments Ok {A} a.
Arguments Throw {A} t.

(** [v.k] for a property name that is no array index: a [TypeError] on
    [null] and [undefined], [undefined] on other primitives. *)
Definition get_prop (v : Val) (k : string) : Result Val :=
  match v with
  | VUndef | VNull =>
      Throw (TError ("Cannot read properties of " +:+ to_string v
                       +:+ " (reading '" +:+ k +:+ "')"))
  | VObj o => Ok (obj_get o k)
  | VArr xs => Ok (if String.eqb k "length" then VNum (inject_Z (Z.of_nat (length xs))) else VUndef)
  | VStr s => Ok (if String.eqb k "length" then VNum (inject_Z (Z.of_nat (String.length s))) else VUndef)
  | VBool _ | VNum _ => Ok VUndef
  end.

(** [v?.[0]] *)
Definition opt_first (v : Val) : Val :=
  match v with
  | VArr xs => nth 0 xs VUndef
  | VObj o => obj_get o "0"
  | VStr (String a _) => VStr (String a EmptyString)
  | _ => VUndef
  end.

(** [v?.k] *)
Definition opt_prop (v : Val) (k : string) : Val :=
  match get_prop v k with
  | Ok x => x
  | Throw _ => VUndef
  end.

End Errors.
Export Errors.

(** ** src/core/pick.ts *)

(** [if (obj[k] !== undefined) out[k] = obj[k]], on the own properties: the
    statement as it runs for a key that names no property of
    [Object.prototype], which holds for every allow-list of the tool
    handlers.  [Proto.pick] below is [pick] for every key. *)
Definition pick_step (obj out : Obj) (k : string) : Obj :=
  if is_undefined (obj_get obj k) then out else obj_set out k (obj_get obj k).

Definition pick (obj : Obj) (keys : list string) : Obj :=
  fold_left (pick_step obj) keys [].

(** [pick] again, on a store of objects: [const out = {}] allocates, the
    loop reads [obj] and writes [out] through their addresses.  The store is
    the list of allocated objects, an address is an index into it. *)
Module Store.

Definition read (st : list Obj) (l : nat) (k : string) : Val :=
  match st !! l with
  | Some o => obj_get o k
  | None => VUndef
  end.

Definition write (st : list Obj) (l : nat) (k : string) (v : Val) : list Obj :=
  alter (fun o => obj_set o k v) l st.

Fixpoint pick_loop (st : list Obj) (obj out : nat) (keys : list string) : list Obj :=
  match keys with
  | [] => st
  | k :: keys' =>
      if is_undefined (read st obj k) then pick_loop st obj out keys'
      else pick_loop (write st out k (read st obj k)) obj out keys'
  end.

Definition pick (st : list Obj) (obj : nat) (keys : list string) : list Obj * nat :=
  let out := length st in
  (pick_loop (st ++ [[]]) obj out keys, out).

End Store.

(** *** Property access with the prototype

    [pick] above takes [obj[k]] and [out[k] = v] on the own properties
    alone, which is what the code does for every key that names no property
    of [Object.prototype].  For the other keys the prototype takes part:
    reading finds the inherited property, and writing [__proto__] runs the
    inherited setter.  This module gives [pick] in full for a plain input
    object: one with own data properties and the prototype
    [Object.prototype], as [JSON.parse] and an object literal make it.  An
    own property named [__proto__] is one that [JSON.parse] made. *)
Module Proto.

(** The functions of [Object.prototype] that have a string key (Node.js). *)
Definition FUNCTIONS : list string :=
  [ "constructor"; "__defineGetter__"; "__defineSetter__"; "hasOwnProperty";
    "__lookupGetter__"; "__lookupSetter__"; "isPrototypeOf"; "propertyIsEnumerable";
    "toString"; "valueOf"; "toLocaleString" ].

(** Its string keys: the functions and the accessor [__proto__]. *)
Definition MEMBERS : list string := "__proto__" :: FUNCTIONS.

(** What a property read can give: a value of the input, a function of
    [Object.prototype], or [Object.prototype] itself. *)
Inductive Value : Type :=
  | Data (v : Val)
  | Builtin (name : string)
  | ThePrototype.

(** [obj[k]] for a plain object: an own property first, then the
    properties of [Object.prototype], where the getter of [__proto__]
    answers with the prototype of [obj]. *)
Definition get (obj : Obj) (k : string) : Value :=
  if bool_decide (k ∈ obj_keys obj) then Data (obj_get obj k)
  else if String.eqb k "__proto__" then ThePrototype
  else if bool_decide (k ∈ FUNCTIONS) then Builtin k
  else Data VUndef.

(** [v !== undefined] *)
Definition defined (v : Value) : bool :=
  match v with
  | Data VUndef => false
  | _ => true
  end.

(** The prototype of the object under construction: [Object.prototype] at
    first; [null], an object or an array of the input once the setter of
    [__proto__] has run with one. *)
Inductive Prototype : Type :=
  | ObjectPrototype
  | NullPrototype
  | InputObject (o : Obj)
  | InputArray (xs : list Val).

(** The object under construction: its prototype and its own properties in
    insertion order, each a writable data property. *)
Record Object : Type := {
  prototype : Prototype;
  own : list (string * Value);
}.

Definition own_keys (o : Object) : list string := map fst (own o).

Fixpoint own_get (props : list (string * Value)) (k : string) : option Value :=
  match props with
  | [] => None
  | (k', v) :: props' => if String.eqb k' k then Some v else own_get props' k
  end.

(** An own property is updated in place or appended. *)
Fixpoint own_set (props : list (string * Value)) (k : string) (v : Value)
    : list (string * Value) :=
  match props with
  | [] => [(k, v)]
  | (k', v') :: props' =>
      if String.eqb k' k then (k', v) :: props' else (k', v') :: own_set props' k v
  end.

(** Whether an assignment to the key [k], not an own property, ends at the
    setter of [Object.prototype.__proto__].  It does for [__proto__] unless
    the chain ends before ([null]) or an object of the input on the chain
    has an own property of that name.  Every other property that the
    chain can hold here is a writable data property, and the assignment
    then makes an own property. *)
Definition reaches_setter (p : Prototype) (k : string) : bool :=
  String.eqb k "__proto__"
  && match p with
     | ObjectPrototype | InputArray _ => true
     | InputObject o => negb (bool_decide ("__proto__" ∈ obj_keys o))
     | NullPrototype => false
     end.

(** [out[k] = v].  The setter of [__proto__] changes the prototype when
    [v] is an object or [null] and does nothing otherwise.  A function as
    the new prototype is not part of the model ([None]); [pick] never asks
    for one. *)
Definition set (out : Object) (k : string) (v : Value) : option Object :=
  if bool_decide (k ∈ own_keys out) || negb (reaches_setter (prototype out) k)
  then Some {| prototype := prototype out; own := own_set (own out) k v |}
  else
    match v with
    | Data VNull => Some {| prototype := NullPrototype; own := own out |}
    | Data (VObj o) => Some {| prototype := InputObject o; own := own out |}
    | Data (VArr xs) => Some {| prototype := InputArray xs; own := own out |}
    | Data _ => Some out
    | ThePrototype => Some {| prototype := ObjectPrototype; own := own out |}
    | Builtin _ => None
    end.

(** [if (obj[k] !== undefined) out[k] = obj[k]] *)
Definition pick_step (obj : Obj) (out : Object) (k : string) : option Object :=
  if defined (get obj k) then set out k (get obj k) else Some out.

(** [const out = {}] *)
Definition empty : Object := {| prototype := ObjectPrototype; own := [] |}.

Definition pick_loop (obj : Obj) (keys : list string) (out : option Object) : option Object :=
  fold_left (fun out k => out ≫= fun o => pick_step obj o k) keys out.

Definition pick (obj : Obj) (keys : list string) : option Object :=
  pick_loop obj keys (Some empty).

(** A plain object seen as one under construction. *)
Definition plain (o : Obj) : Object :=
  {| prototype := ObjectPrototype; own := map (fun kv => (fst kv, Data (snd kv))) o |}.

Definition key_set (o : Object) : gset string := list_to_set (own_keys o).

End Proto.

(** ** src/core/types.ts *)

(** [typeof v === 'object'] *)
Definition typeof_object (v : Val) : bool :=
  match v with
  | VNull | VArr _ | VObj _ => true
  | _ => false
  end.

Definition isConfirmationResponse (v : Val) : bool :=
  typeof_object v
  && negb (match v with VNull => true | _ => false end)
  && is_true (opt_prop v "confirmation_required").

(** ** src/core/result.ts *)

(** The tool result [{ content: [{ type: 'text', text }], details }]. *)
Record TextContent : Type := { type : string; text : string }.
Record AgentToolResult : Type := { content : list TextContent; details : Val }.

Section Result.
(** [JSON.stringify(payload, null, 2)], a function of the platform. *)
Variable JSON_stringify : Val -> string.

Definition jsonResult (payload : Val) : AgentToolResult :=
  {| content := [ {| type := "text"; text := JSON_stringify payload |} ];
     details := payload |}.
End Result.

(** ** The network, the timer and the clock *)

Module Http.

(** A response body as [response.json()] sees it: nothing at all, a JSON
    document, or text that is no JSON (with the parser's complaint). *)
Inductive Body : Type :=
  | BodyEmpty
  | BodyJson (v : Val)
  | BodyInvalid (complaint : string).

(** Header names are kept in lower case, as [Headers] normalises them. *)
Record Response : Type := {
  status : Z;
  headers : list (string * string);
  body : Body;
}.

Definition ok (r : Response) : bool :=
  ((200 <=? status r) && (status r <=? 299))%Z.

(** [await response.json()] *)
Definition json (r : Response) : Result Val :=
  match body r with
  | BodyJson v => Ok v
  | BodyEmpty => Throw (TError "Unexpected end of JSON input")
  | BodyInvalid complaint => Throw (TError complaint)
  end.

Definition lower (a : ascii) : ascii :=
  let n := N_of_ascii a in
  if ((65 <=? n) && (n <=? 90))%N then ascii_of_N (n + 32) else a.

Fixpoint lowercase (s : string) : string :=
  match s with
  | EmptyString => EmptyString
  | String a s' => String (lower a) (lowercase s')
  end.

(** [response.headers.get(name)]: [None] is [null]. *)
Definition headers_get (r : Response) (name : string) : option string :=
  snd <$> find (fun h => String.eqb (fst h) (lowercase name)) (headers r).

(** What [fetch] is called with.  [search] holds the query parameters
    before URL encoding, [payload] the body before JSON encoding.  The
    header set (credentials, correlation id, agent identity) is left out. *)
Record Request : Type := {
  url : string;
  method : string;
  search : list (string * string);
  payload : option Val;
  timeout : Z;
}.

Inductive FetchOutcome : Type :=
  | Resolved (r : Response)
  | Rejected (t : Thrown).

End Http.

Module Io.

Inductive Event : Type :=
  | Fetched (req : Http.Request)
  | Slept (ms : Z).

(** The world outside: the outcome of the [n]-th [fetch] of the run, the
    clock ([Date.now()]) and the random bytes of [crypto]. *)
Record Env : Type := {
  respond : nat -> Http.Request -> Http.FetchOutcome;
  now : Z;
  random_byte : nat -> Z;
}.

(** The number of [fetch] calls in a log. *)
Fixpoint fetch_count (w : list Event) : nat :=
  match w with
  | [] => 0
  | Fetched _ :: w' => S (fetch_count w')
  | Slept _ :: w' => fetch_count w'
  end.

(** An effectful computation: it reads the environment, extends the log of
    events (oldest first), and returns or throws. *)
Definition M (A : Type) : Type := Env -> list Event -> Result A * list Event.

Definition ret {A} (a : A) : M A := fun _ w => (Ok a, w).

Definition throw {A} (t : Thrown) : M A := fun _ w => (Throw t, w).

Definition bind {A B} (m : M A) (k : A -> M B) : M B :=
  fun env w =>
    match m env w with
    | (Ok a, w') => k a env w'
    | (Throw t, w') => (Throw t, w')
    end.

(** [try { m } catch (err) { handler err }] *)
Definition try_catch {A} (m : M A) (handler : Thrown -> M A) : M A :=
  fun env w =>
    match m env w with
    | (Ok a, w') => (Ok a, w')
    | (Throw t, w') => handler t env w'
    end.

Definition lift {A} (r : Result A) : M A := fun _ w => (r, w).

Definition fetch (req : Http.Request) : M Http.Response :=
  fun env w =>
    match respond env (fetch_count w) req with
    | Http.Resolved r => (Ok r, w ++ [Fetched req])
    | Http.Rejected t => (Throw t, w ++ [Fetched req])
    end.

Definition sleep (ms : Z) : M unit := fun _ w => (Ok tt, w ++ [Slept ms]).

Definition Date_now : M Z := fun env w => (Ok (now env), w).

End Io.
Export Io.

Declare Scope io_scope.
Delimit Scope io_scope with io.
Notation "'let!' x ':=' m 'in' k" := (bind m (fun x => k))
  (at level 10, x name, m at level 100, k at level 200) : io_scope.
Notation "'run!' m 'in' k" := (bind m (fun _ => k))
  (at level 10, m at level 100, k at level 200) : io_scope.
Local Open Scope io_scope.

(** ** src/core/api-client.ts *)

Definition DEFAULT_TIMEOUT_MS : Z := 30000.
Definition MAX_RETRIES : Z := 2.
Definition RETRY_DELAY_MS : Z := 1000.

Module Config.
Record CynapsConfig : Type := {
  supabaseUrl : string;
  supabaseAnonKey : string;
  serviceRoleKey : string;
  userId : string;
  agentId : option string;
}.
End Config.

Record CynapsApiClient : Type := {
  baseUrl : string;
  anonKey : string;
  serviceRoleKey : string;
  userId : string;
  agentId : option string;
}.

(** [s.replace(/\/$/, '')] *)
Fixpoint strip_trailing_slash (s : string) : string :=
  match s with
  | EmptyString => EmptyString
  | String a EmptyString => if Ascii.eqb a "/" then EmptyString else s
  | String a s' => String a (strip_trailing_slash s')
  end.

Definition new_client (config : Config.CynapsConfig) : CynapsApiClient :=
  {| baseUrl := strip_trailing_slash (Config.supabaseUrl config);
     anonKey := Config.supabaseAnonKey config;
     serviceRoleKey := Config.serviceRoleKey config;
     userId := Config.userId config;
     agentId := Config.agentId config |}.

Module CallOptions.
Record t : Type := {
  method : option string;
  timeout : option Z;
  retries : option Z;
}.
End CallOptions.

Module QueryOptions.
Record t : Type := {
  method : option string;
  body : option Obj;
}.
End QueryOptions.

Definition parseRetryAfter (response : Http.Response) : Z :=
  match Http.headers_get response "Retry-After" with
  | None => 5
  | Some header =>
      if String.eqb header "" then 5
      else match parseInt header with
           | Some seconds => Z.min seconds 60
           | None => 5
           end
  end.

(** [await response.json().catch(() => ({ error: `HTTP ${response.status}` }))] *)
Definition error_body (response : Http.Response) : Val :=
  match Http.json response with
  | Ok v => v
  | Throw _ => VObj [("error", VStr ("HTTP " +:+ pretty (Http.status response)))]
  end.

(** [errorBody.error || `HTTP ${response.status}`], as the [Error]
    constructor turns it into a string.  Reading a property of a [null]
    error body throws. *)
Definition error_message (response : Http.Response) (errorBody : Val) : Result string :=
  match get_prop errorBody "error" with
  | Ok e => Ok (to_string (or_else e (VStr ("HTTP " +:+ pretty (Http.status response)))))
  | Throw t => Throw t
  end.

(** The typed error [call] builds from a response that is not [ok]. *)
Definition api_error (response : Http.Response) : Result CynapsApiError :=
  let errorBody := error_body response in
  match error_message response errorBody with
  | Ok msg =>
      Ok (new msg (Http.status response)
            (opt_prop errorBody "code") (opt_prop errorBody "errorId"))
  | Throw t => Throw t
  end.

(** The typed error [call] builds from a timeout or a network fault. *)
Definition network_error (timeout : Z) (err : Thrown) : CynapsApiError :=
  let msg := match err with
             | TApi e => message e
             | TError m => m
             | TOther v => to_string v
             end in
  new (if includes "timeout" msg
       then "Request timed out after " +:+ pretty timeout +:+ "ms"
       else msg)
      0 (VStr "NETWORK_ERROR") VUndef.

(** How one round of the retry loop ends when it does not throw: with the
    parsed body, or with [lastError] set and the loop going on. *)
Inductive Round : Type :=
  | Returned (v : Val)
  | Failed (lastError : CynapsApiError).

(** The body of the [for] loop of [call], at a given [attempt]. *)
Definition call_attempt (req : Http.Request) (maxRetries attempt : Z) : M Round :=
  try_catch
    (let! response := fetch req in
     if Http.ok response then
       let! v := lift (Http.json response) in
       ret (Returned v)
     else
       let! apiError := lift (api_error response) in
       if isClientError apiError then throw (TApi apiError)
       else if (attempt <? maxRetries)%Z then
         let delay := if isRateLimited apiError
                      then (parseRetryAfter response * 1000)%Z
                      else (RETRY_DELAY_MS * 2 ^ attempt)%Z in
         run! sleep delay in
         ret (Failed apiError)
       else ret (Failed apiError))
    (fun err =>
       match err with
       | TApi e => throw (TApi e)
       | _ =>
           let lastError := network_error (Http.timeout req) err in
           if (attempt <? maxRetries)%Z then
             run! sleep (RETRY_DELAY_MS * 2 ^ attempt)%Z in
             ret (Failed lastError)
           else ret (Failed lastError)
       end).

(** [for (let attempt = 0; attempt <= maxRetries; attempt++) { ... }]
    followed by the final [throw].  [rounds] is the number of values of
    [attempt] still to come, [maxRetries + 1 - attempt] cut off at zero, so
    that [rounds = 0] is the loop condition failing. *)
Fixpoint call_loop (req : Http.Request) (maxRetries : Z) (rounds : nat)
    (attempt : Z) (lastError : option CynapsApiError) : M Val :=
  match rounds with
  | O =>
      throw (TApi (default (new "Request failed after retries" 500 VUndef VUndef) lastError))
  | S rounds' =>
      let! round := call_attempt req maxRetries attempt in
      match round with
      | Returned v => ret v
      | Failed e => call_loop req maxRetries rounds' (attempt + 1)%Z (Some e)
      end
  end.

Definition call_request (client : CynapsApiClient) (functionName : string)
    (body : Obj) (options : option CallOptions.t) : Http.Request :=
  let method := default "POST" (options ≫= CallOptions.method) in
  {| Http.url := baseUrl client +:+ "/functions/v1/" +:+ functionName;
     Http.method := method;
     Http.search := [];
     Http.payload := if String.eqb method "GET" then None else Some (VObj body);
     Http.timeout := default DEFAULT_TIMEOUT_MS (options ≫= CallOptions.timeout) |}.

Definition call (client : CynapsApiClient) (functionName : string)
    (body : Obj) (options : option CallOptions.t) : M Val :=
  let maxRetries := default MAX_RETRIES (options ≫= CallOptions.retries) in
  call_loop (call_request client functionName body options) maxRetries
    (Z.to_nat (maxRetries + 1)) 0%Z None.

(** [rpc(method, params = {}, options?: { timeout? })] *)
Definition rpc (client : CynapsApiClient) (method : string) (params : Obj)
    (timeout : option Z) : M Val :=
  call client "agent-tools" [("method", VStr method); ("params", VObj params)]
    ((fun t => {| CallOptions.method := None;
                  CallOptions.timeout := Some t;
                  CallOptions.retries := None |}) <$> timeout).

(** The request of [query].  [new URL(...)] is taken to accept the address:
    [parseConfig] has checked the base URL of a configured client. *)
Definition query_request (client : CynapsApiClient) (table : string)
    (params : option (list (string * string))) (options : option QueryOptions.t)
    : Http.Request :=
  {| Http.url := baseUrl client +:+ "/functions/v1/skill-api/" +:+ table;
     Http.method := default "GET" (options ≫= QueryOptions.method);
     Http.search := default [] params;
     Http.payload := VObj <$> (options ≫= QueryOptions.body);
     Http.timeout := DEFAULT_TIMEOUT_MS |}.

Definition query (client : CynapsApiClient) (table : string)
    (params : option (list (string * string))) (options : option QueryOptions.t)
    : M Val :=
  let! response := fetch (query_request client table params options) in
  if negb (Http.ok response) then
    let errorBody := error_body response in
    let! msg := lift (error_message response errorBody) in
    throw (TApi (new msg (Http.status response) (opt_prop errorBody "code") VUndef))
  else if (Http.status response =? 204)%Z
          || bool_decide (Http.headers_get response "content-length" = Some "0")
  then ret (VArr [])
  else lift (Http.json response).

(** ** Tool handlers *)

(** The own properties an object spread [{ ...v }] copies. *)
Definition spread (v : Val) : Obj :=
  match v with
  | VObj o => o
  | VArr xs => imap (fun i x => (pretty (Z.of_nat i), x)) xs
  | VStr s =>
      imap (fun i a => (pretty (Z.of_nat i), VStr (String a EmptyString)))
           (list_ascii_of_string s)
  | _ => []
  end.

Definition hex_digit (n : Z) : string :=
  String (ascii_of_N (Z.to_N (if (n <? 10)%Z then 48 + n else 87 + n)%Z)) EmptyString.

(** [b.toString(16).padStart(2, '0')] for a byte [b] *)
Definition hex_byte (b : Z) : string :=
  hex_digit (b / 16)%Z +:+ hex_digit (b mod 16)%Z.

(** [crypto.getRandomValues(new Uint8Array(n))] *)
Definition getRandomValues (n : nat) : M (list Z) :=
  fun env w => (Ok (map (fun i => (random_byte env i mod 256)%Z) (seq 0 n)), w).

Definition QUOTE : string := String (ascii_of_nat 34) EmptyString.

Section Tools.
Variable JSON_stringify : Val -> string.
Variable client : CynapsApiClient.

Local Abbreviation jsonResult := (jsonResult JSON_stringify).

(** *** src/tools/musicmation-write.ts *)

Definition musicmation_rate_tracks (params : Obj) : M AgentToolResult :=
  try_catch
    (let! result := rpc client "rate-tracks"
                      (pick params ["ratings"; "confirmation_token"]) None in
     if isConfirmationResponse result then
       ret (jsonResult (VObj (obj_set (spread result) "instruction"
         (VStr "Present this action to the user. Call again with the confirmation_token when approved."))))
     else ret (jsonResult result))
    (fun err => throw (TApi (wrapError err))).

Definition musicmation_create_album (params : Obj) : M AgentToolResult :=
  try_catch
    (let! result := rpc client "create-album"
                      (pick params ["title"; "track_ids"; "project_id"; "genre";
                                    "description"; "confirmation_token"]) None in
     if isConfirmationResponse result then
       ret (jsonResult (VObj (obj_set (spread result) "instruction"
         (VStr "Present this album creation to the user. Call again with the confirmation_token when approved."))))
     else ret (jsonResult result))
    (fun err => throw (TApi (wrapError err))).

Definition musicmation_set_dramaturgy (params : Obj) : M AgentToolResult :=
  try_catch
    (let! result := rpc client "set-dramaturgy"
                      (pick params ["album_id"; "tracks"; "confirmation_token"]) None in
     if isConfirmationResponse result then
       ret (jsonResult (VObj (obj_set (spread result) "instruction"
         (VStr "Present this dramaturgy plan to the user. Call again with the confirmation_token when approved."))))
     else ret (jsonResult result))
    (fun err => throw (TApi (wrapError err))).

Definition musicmation_bulk_rename (params : Obj) : M AgentToolResult :=
  try_catch
    (let! result := rpc client "bulk-rename-tracks"
                      (pick params ["renames"; "confirmation_token"]) None in
     if isConfirmationResponse result then
       ret (jsonResult (VObj (obj_set (spread result) "instruction"
         (VStr "Present these renames to the user. Call again with the confirmation_token when approved."))))
     else ret (jsonResult result))
    (fun err => throw (TApi (wrapError err))).

(** *** src/tools/musicmation-generate.ts *)

Definition create_track_body (params : Obj) (generatedId : string) (isSonauto : bool) : Obj :=
  [ ("id", VStr generatedId);
    ("title", obj_get params "title");
    ("transcript", or_else (obj_get params "lyrics") (VStr ""));
    ("style_tags", or_else (obj_get params "style_tags") (VStr ""));
    ("project_id", or_else (obj_get params "project_id") VNull);
    ("item_type", VStr "track");
    ("mood", or_else (obj_get params "mood") VNull);
    ("genre", or_else (obj_get params "genre") VNull);
    ("status", VStr "draft");
    ("generation_source", VStr (if isSonauto then "sonauto" else "suno")) ].

Definition enqueue_body (params : Obj) (trackId : Val) (isSonauto : bool) : Obj :=
  if isSonauto then
    [ ("trackIds", VArr [trackId]);
      ("projectId", or_else (obj_get params "project_id") VNull);
      ("generationsRequested", VNum 1);
      ("prompt_strength", nullish_else (obj_get params "prompt_strength") (VNum 2));
      ("output_format", or_else (obj_get params "output_format") (VStr "ogg"));
      ("align_lyrics", nullish_else (obj_get params "align_lyrics") (VBool false)) ]
  else
    [ ("trackIds", VArr [trackId]);
      ("projectId", or_else (obj_get params "project_id") VNull);
      ("generationsRequested", VNum 1);
      ("model", or_else (obj_get params "model") (VStr "V5"));
      ("weirdness", nullish_else (obj_get params "weirdness") (VNum (1 # 2)));
      ("styleWeight", nullish_else (obj_get params "style_weight") (VNum (83 # 100))) ].

Definition musicmation_generate (params : Obj) : M AgentToolResult :=
  let provider := or_else (obj_get params "provider") (VStr "suno") in
  let isSonauto := is_string provider "sonauto" in
  let! ms := Date_now in
  let timestamp := (ms / 1000)%Z in
  let! bytes := getRandomValues 4 in
  let hex := foldr (fun b acc => hex_byte b +:+ acc) "" bytes in
  let generatedId := "track_" +:+ pretty timestamp +:+ "_" +:+ hex in
  (* Step 1: create the track item *)
  let! items := query client "sunoma_items" None
                  (Some {| QueryOptions.method := Some "POST";
                           QueryOptions.body :=
                             Some (create_track_body params generatedId isSonauto) |}) in
  let trackId := opt_prop (opt_first items) "id" in
  if negb (truthy trackId) then
    throw (TApi (new "Failed to create track item — no ID returned" 500
                   (VStr "CREATE_FAILED") VUndef))
  else
    (* Step 2: enqueue generation, routed by provider *)
    try_catch
      (let endpoint := if isSonauto then "sonauto-generation-enqueue"
                       else "suno-generation-enqueue" in
       let! result := call client endpoint (enqueue_body params trackId isSonauto) None in
       let variationMsg := if isSonauto then "1 song" else "2 variations" in
       let! enqueued := lift (get_prop result "enqueued") in
       ret (jsonResult (VObj
         [ ("track_id", trackId);
           ("provider", provider);
           ("enqueued", VBool (gt_zero enqueued));
           ("tier", opt_prop result "tier");
           ("message", VStr
              (if gt_zero enqueued
               then "Track " +:+ QUOTE +:+ to_string (obj_get params "title") +:+ QUOTE
                      +:+ " enqueued via " +:+ to_string provider
                      +:+ ". Generating " +:+ variationMsg
                      +:+ " — takes 30-90 seconds."
               else "Track created but generation failed. "
                      +:+ to_string (opt_prop result "skipped") +:+ " skipped.")) ])))
      (fun err =>
         (* the track was created but the enqueue failed *)
         let wrapped := wrapError err in
         ret (jsonResult (VObj
           [ ("track_id", trackId);
             ("provider", provider);
             ("enqueued", VBool false);
             ("tier", VStr "unknown");
             ("message", VStr
                ("Track created (" +:+ to_string trackId +:+ ") but "
                   +:+ to_string provider +:+ " generation failed: "
                   +:+ userMessage wrapped)) ]))).

(** *** The content tools ([musicmation_update_item]) *)

Definition updatableFields : list string :=
  [ "project_id"; "title"; "status"; "transcript"; "transcript_draft";
    "short_summary"; "copyright"; "artist"; "composer"; "genre"; "mood";
    "tone"; "instrument"; "album"; "style_d"; "style_e"; "style_f";
    "sub_cluster"; "type"; "series_name"; "part";
    "image_url"; "audio_url"; "rating";
    "shortlisted"; "selected_for_upload"; "done_flag" ].

Definition musicmation_update_item (params : Obj) : M AgentToolResult :=
  try_catch
    (let itemId := obj_get params "item_id" in
     let body :=
       fold_left
         (fun body key =>
            if is_undefined (obj_get params key) then body
            else obj_set body key (obj_get params key))
         updatableFields [] in
     if (length (obj_keys body) =? 0)%nat then
       ret (jsonResult (VObj [("message", VStr "No fields to update.")]))
     else
       let! items := query client "sunoma_items"
                       (Some [("id", "eq." +:+ to_string itemId)])
                       (Some {| QueryOptions.method := Some "PATCH";
                                QueryOptions.body := Some body |}) in
       let item := opt_first items in
       ret (jsonResult (VObj
         [ ("item", or_else item (VObj [("id", itemId)]));
           ("message", VStr "Item updated successfully.") ])))
    (fun err => throw (TApi (wrapError err))).

End Tools.


(** ** More of the client: identity and headers *)

(** The tool context of the host, as far as the client reads it. *)
Module Context.
Record t : Type := { agentId : option string }.
End Context.

(** The variables of [process.env] the plugin reads. *)
Module ProcessEnv.
Record t : Type := {
  CYNAPS3_SUPABASE_URL : option string;
  CYNAPS3_ANON_KEY : option string;
  CYNAPS3_SERVICE_ROLE_KEY : option string;
  CYNAPS3_USER_ID : option string;
  CYNAPS3_CONTENT_DOMAIN : option string;
  OPENCLAW_AGENT_ID : option string;
  CYNAPS3_AGENT_ID : option string;
}.
End ProcessEnv.

(** Truthiness of a string that may be [undefined]: present and not empty. *)
Definition nonempty (s : option string) : bool :=
  match s with
  | Some s' => negb (String.eqb s' "")
  | None => false
  end.

(** [a || b] on strings that may be [undefined]. *)
Definition first_nonempty (a b : option string) : option string :=
  if nonempty a then a else b.

(** [ctx?.agentId ? { ...config, agentId: ctx.agentId } : config] *)
Definition fromContext (config : Config.CynapsConfig) (ctx : option Context.t)
    : CynapsApiClient :=
  let effective :=
    if nonempty (ctx ≫= Context.agentId)
    then {| Config.supabaseUrl := Config.supabaseUrl config;
            Config.supabaseAnonKey := Config.supabaseAnonKey config;
            Config.serviceRoleKey := Config.serviceRoleKey config;
            Config.userId := Config.userId config;
            Config.agentId := ctx ≫= Context.agentId |}
    else config in
  new_client effective.

(** [buildHeaders()], given the environment of the process and the value of
    [crypto.randomUUID()].  The header set is an object: names in insertion
    order. *)
Definition buildHeaders (client : CynapsApiClient) (penv : ProcessEnv.t)
    (uuid : string) : list (string * string) :=
  let headers :=
    [ ("Content-Type", "application/json");
      ("apikey", anonKey client);
      ("Authorization", "Bearer " +:+ serviceRoleKey client);
      ("X-CLI-User-Id", userId client);
      ("X-Request-ID", uuid) ] in
  let agent :=
    first_nonempty
      (first_nonempty (agentId client) (ProcessEnv.OPENCLAW_AGENT_ID penv))
      (ProcessEnv.CYNAPS3_AGENT_ID penv) in
  match agent with
  | Some a => if nonempty agent then headers ++ [("X-Agent-Id", a)] else headers
  | None => headers
  end.

(** ** src/core/config.ts *)

Definition VALID_MODULES : list string :=
  ["musicmation"; "storymation"; "skillmation"; "contentmation"].

Definition getString (obj : option Obj) (key : string) : option string :=
  match obj with
  | None => None
  | Some o =>
      match obj_get o key with
      | VStr val => if (0 <? String.length val)%nat then Some val else None
      | _ => None
      end
  end.

(** The configuration [parseConfig] returns: the five fields the client
    reads, the content domain and the enabled modules. *)
Module Parsed.
Record CynapsConfig : Type := {
  base : Config.CynapsConfig;
  contentDomain : string;
  enabledModules : list string;
}.
End Parsed.

(** [typeof m === 'string' && VALID_MODULES.has(m)], kept as a string. *)
Definition valid_module (m : Val) : option string :=
  match m with
  | VStr name => if bool_decide (name ∈ VALID_MODULES) then Some name else None
  | _ => None
  end.

Section ParseConfig.
(** [new URL(s)] does not throw. *)
Variable URL_valid : string -> bool.

Definition parseConfig (penv : ProcessEnv.t) (pluginConfig : option Obj)
    : Result Parsed.CynapsConfig :=
  let supabaseUrl := first_nonempty (getString pluginConfig "supabaseUrl")
                       (ProcessEnv.CYNAPS3_SUPABASE_URL penv) in
  let supabaseAnonKey := first_nonempty (getString pluginConfig "supabaseAnonKey")
                           (ProcessEnv.CYNAPS3_ANON_KEY penv) in
  let serviceRoleKey := first_nonempty (getString pluginConfig "serviceRoleKey")
                          (ProcessEnv.CYNAPS3_SERVICE_ROLE_KEY penv) in
  let userId := first_nonempty (getString pluginConfig "userId")
                  (ProcessEnv.CYNAPS3_USER_ID penv) in
  let contentDomain :=
    first_nonempty
      (first_nonempty (getString pluginConfig "contentDomain")
         (ProcessEnv.CYNAPS3_CONTENT_DOMAIN penv))
      (Some "https://content.7cycle.life") in
  let agentId := getString pluginConfig "agentId" in
  if negb (nonempty supabaseUrl) then Throw (TError "Missing required config: supabaseUrl")
  else if negb (nonempty supabaseAnonKey) then
    Throw (TError "Missing required config: supabaseAnonKey")
  else if negb (nonempty serviceRoleKey) then
    Throw (TError "Missing required config: serviceRoleKey")
  else if negb (nonempty userId) then Throw (TError "Missing required config: userId")
  else if negb (URL_valid (default "" supabaseUrl)) then
    Throw (TError ("Invalid supabaseUrl: " +:+ default "" supabaseUrl))
  else
    let rawModules :=
      match pluginConfig with
      | Some o =>
          match obj_get o "enabledModules" with
          | VArr ms => ms
          | _ => [VStr "musicmation"]
          end
      | None => [VStr "musicmation"]
      end in
    let enabledModules := omap valid_module rawModules in
    Ok {| Parsed.base :=
            {| Config.supabaseUrl := default "" supabaseUrl;
               Config.supabaseAnonKey := default "" supabaseAnonKey;
               Config.serviceRoleKey := default "" serviceRoleKey;
               Config.userId := default "" userId;
               Config.agentId := agentId |};
          Parsed.contentDomain := default "" contentDomain;
          Parsed.enabledModules :=
            match enabledModules with
            | [] => ["musicmation"]
            | _ => enabledModules
            end |}.

End ParseConfig.

(** ** src/tools/_registry.ts *)

(** What the host has been given: the tool factories registered so far, in
    order, each by the names of the tools it makes. *)
Abbreviation Api := (list (list string)).

Definition registerTool (api : Api) (factory : list string) : Api := api ++ [factory].

Definition registerPreflightTool (api : Api) : Api :=
  registerTool api ["cynaps3_preflight"].

Definition registerMusicmationGenerateTool (api : Api) : Api :=
  registerTool api
    ["musicmation_generate"; "musicmation_bulk_generate"; "musicmation_bulk_poll_status"].

Definition registerMusicmationLibraryTools (api : Api) : Api :=
  registerTool api
    ["musicmation_search_tracks"; "musicmation_browse_styles"; "musicmation_library_stats";
     "musicmation_recommend"; "musicmation_get_personas"; "musicmation_get_top_rated";
     "musicmation_browse_influence_groups"; "musicmation_get_influence_group_detail";
     "musicmation_poll_status"; "musicmation_generate_lyrics"].

Definition registerMusicmationWriteTools (api : Api) : Api :=
  registerTool api
    ["musicmation_rate_tracks"; "musicmation_create_album"; "musicmation_set_dramaturgy";
     "musicmation_bulk_rename"].

Definition registerMusicmationProjectTools (api : Api) : Api :=
  registerTool api
    ["musicmation_list_projects"; "musicmation_create_project"; "musicmation_update_project";
     "musicmation_get_project_context"; "musicmation_set_project_context";
     "musicmation_delete_project"].

Definition registerMusicmationContentTools (api : Api) : Api :=
  registerTool api ["musicmation_create_item"; "musicmation_update_item"].

Definition MODULE_TOOLS : list (string * list (Api -> Api)) :=
  [ ("musicmation",
     [ registerMusicmationGenerateTool; registerMusicmationLibraryTools;
       registerMusicmationWriteTools; registerMusicmationProjectTools;
       registerMusicmationContentTools ]);
    ("storymation", []);
    ("skillmation", []);
    ("contentmation", []) ].

Definition registerAllTools (api : Api) (enabledModules : list string) : Api :=
  fold_left
    (fun api entry =>
       if bool_decide (fst entry ∈ enabledModules)
       then fold_left (fun api registrar => registrar api) (snd entry) api
       else api)
    MODULE_TOOLS (registerPreflightTool api).

(** ** More of the platform *)

(** [a === b] for values of different origin (one from the parameters, one
    from a response): two objects or arrays are then never the same object. *)
Definition strict_eq (a b : Val) : bool :=
  match a, b with
  | VUndef, VUndef => true
  | VNull, VNull => true
  | VBool x, VBool y => Bool.eqb x y
  | VNum x, VNum y => Qeq_bool x y
  | VStr x, VStr y => String.eqb x y
  | _, _ => false
  end.

(** [v.toLowerCase()] for a truthy [v]: a method of strings only.  Letters
    outside ASCII are left as they are. *)
Definition toLowerCase (v : Val) (what : string) : Result string :=
  match v with
  | VStr s => Ok (Http.lowercase s)
  | _ => Throw (TError (what +:+ ".toLowerCase is not a function"))
  end.

(** The elements of [v] when it is an array; calling an array method on
    anything else that is truthy throws. *)
Definition array_method (v : Val) (what : string) : Result (list Val) :=
  match v with
  | VArr xs => Ok xs
  | _ => Throw (TError (what +:+ " is not a function"))
  end.

(** The values [for (const x of v)] runs through. *)
Definition iterate (v : Val) : Result (list Val) :=
  match v with
  | VArr xs => Ok xs
  | VStr s => Ok (map (fun a => VStr (String a EmptyString)) (list_ascii_of_string s))
  | _ => Throw (TError (to_string v +:+ " is not iterable"))
  end.

Definition NEWLINE : string := String (ascii_of_nat 10) EmptyString.

(** [lines.join(sep)] *)
Fixpoint join (sep : string) (lines : list string) : string :=
  match lines with
  | [] => ""
  | [l] => l
  | l :: rest => l +:+ sep +:+ join sep rest
  end.

Definition rbind {A B : Type} (r : Result A) (k : A -> Result B) : Result B :=
  match r with
  | Ok a => k a
  | Throw t => Throw t
  end.

Notation "'let?' x ':=' r 'in' k" := (rbind r (fun x => k))
  (at level 10, x name, r at level 100, k at level 200) : io_scope.

(** [(v?.length ?? 0) + 1] *)
Definition length_plus_one (v : Val) : Val :=
  match v with
  | VArr xs => VNum (inject_Z (Z.of_nat (length xs) + 1))
  | VStr s => VNum (inject_Z (Z.of_nat (String.length s) + 1))
  | VObj o =>
      match obj_get o "length" with
      | VUndef | VNull => VNum 1
      | VNum q => VNum (q + 1)
      | VBool b => VNum (if b then 2 else 1)
      | VStr s => VStr (s +:+ "1")
      | x => VStr (to_string x +:+ "1")
      end
  | _ => VNum 1
  end.

(** ** src/commands/status.ts *)

(** The lines of the loop over [pf.actions_needed]. *)
Fixpoint action_lines (actions : list Val) : Result (list string) :=
  match actions with
  | [] => Ok []
  | action :: rest =>
      let? issue := get_prop action "issue" in
      let line := "- " +:+ to_string issue +:+ ": " +:+ to_string (opt_prop action "message") in
      let instructions := opt_prop action "instructions" in
      let? more := action_lines rest in
      Ok (line :: (if truthy instructions then ["  " +:+ to_string instructions] else [])
            ++ more)
  end.

Definition formatStatus (pf : Val) : Result string :=
  let? c := get_prop pf "checks" in
  let? tier := get_prop c "tier" in
  let lines :=
    [ "**Cynaps3 Status**"; "";
      "Tier: **" +:+ to_string tier +:+ "**";
      "API Key: " +:+ (if truthy (opt_prop c "suno_api_key") then "Configured" else "Missing") ]
    ++ (match opt_prop c "credits_available" with
        | VNull => []
        | credits => ["Credits: **" +:+ to_string credits +:+ "**"]
        end)
    ++ [ "Daily Usage: **" +:+ to_string (opt_prop c "daily_used") +:+ "/"
           +:+ to_string (opt_prop c "daily_limit") +:+ "**";
         "" ] in
  if truthy (opt_prop pf "ready") then Ok (join NEWLINE (lines ++ ["Status: Ready"]))
  else
    let? actions := iterate (opt_prop pf "actions_needed") in
    let? issues := action_lines actions in
    Ok (join NEWLINE (lines ++ ["**Issues:**"] ++ issues)).

(** The handler of the [cynaps3-status] command; it returns [{ text }]. *)
Definition status_handler (config : Config.CynapsConfig) : M string :=
  try_catch
    (let client := new_client config in
     let! result := rpc client "preflight" [] None in
     let! text := lift (formatStatus result) in
     ret text)
    (fun _ => ret "Could not fetch status. Please try again.").

(** ** More tool handlers *)

Section MoreTools.
Variable JSON_stringify : Val -> string.
Variable client : CynapsApiClient.
(** [config.contentDomain] *)
Variable contentDomain : string.

Local Abbreviation jsonResult := (jsonResult JSON_stringify).

(** *** src/tools/cynaps3-preflight.ts *)

Definition cynaps3_preflight (params : Obj) : M AgentToolResult :=
  try_catch
    (let! result := rpc client "preflight" [] None in
     ret (jsonResult result))
    (fun err => throw (TApi (wrapError err))).

(** *** src/tools/musicmation-library.ts *)

Definition musicmation_search_tracks (params : Obj) : M AgentToolResult :=
  try_catch
    (let! result := rpc client "search-tracks"
                      (pick params ["mood"; "genre"; "energy_level"; "bpm_range"; "key";
                                    "text"; "limit"]) None in
     ret (jsonResult result))
    (fun err => throw (TApi (wrapError err))).

Definition musicmation_browse_styles (params : Obj) : M AgentToolResult :=
  try_catch
    (let! result := rpc client "browse-styles"
                      (pick params ["query"; "category"; "tags"; "limit"; "detail_ids"]) None in
     ret (jsonResult result))
    (fun err => throw (TApi (wrapError err))).

Definition musicmation_library_stats (params : Obj) : M AgentToolResult :=
  try_catch
    (let! result := rpc client "library-stats" [] None in
     ret (jsonResult result))
    (fun err => throw (TApi (wrapError err))).

Definition musicmation_recommend (params : Obj) : M AgentToolResult :=
  try_catch
    (let! result := rpc client "recommend"
                      (pick params ["mood"; "energy"; "context"; "exclude_ids"; "limit"]) None in
     ret (jsonResult result))
    (fun err => throw (TApi (wrapError err))).

Definition musicmation_get_personas (params : Obj) : M AgentToolResult :=
  try_catch
    (let! result := rpc client "get-personas" [] None in
     ret (jsonResult result))
    (fun err => throw (TApi (wrapError err))).

Definition musicmation_get_top_rated (params : Obj) : M AgentToolResult :=
  try_catch
    (let! result := rpc client "get-top-rated"
                      (pick params ["min_rating"; "project_id"; "limit"]) None in
     ret (jsonResult result))
    (fun err => throw (TApi (wrapError err))).

Definition musicmation_browse_influence_groups (params : Obj) : M AgentToolResult :=
  try_catch
    (let! result := rpc client "browse-influence-groups"
                      (pick params ["project_id"; "query"; "limit"]) None in
     ret (jsonResult result))
    (fun err => throw (TApi (wrapError err))).

Definition musicmation_get_influence_group_detail (params : Obj) : M AgentToolResult :=
  try_catch
    (let! result := rpc client "get-influence-group-detail"
                      (pick params ["group_id"]) None in
     ret (jsonResult result))
    (fun err => throw (TApi (wrapError err))).

Definition TRACK_SELECT : string :=
  "id,title,status,audio_url,image_url,duration_sec,generation_source".

Definition VARIATION_SELECT : string :=
  "id,title,status,audio_url,image_url,duration_sec,variation_index".

Definition musicmation_poll_status (params : Obj) : M AgentToolResult :=
  try_catch
    (let trackId := obj_get params "track_id" in
     (* Fetch the original track *)
     let! tracks := query client "sunoma_items"
                      (Some [("id", "eq." +:+ to_string trackId); ("select", TRACK_SELECT)])
                      None in
     let track := opt_first tracks in
     if negb (truthy track) then
       ret (jsonResult (VObj [ ("status", VStr "not_found");
                               ("track_id", trackId);
                               ("message", VStr "Track not found") ]))
     else if is_string (opt_prop track "status") "COMPLETE" then
       let! variations := query client "sunoma_items"
                            (Some [ ("parent_id", "eq." +:+ to_string trackId);
                                    ("item_type", "eq.variation");
                                    ("select", VARIATION_SELECT);
                                    ("order", "variation_index.asc") ])
                            None in
       let! vs := lift (array_method (or_else variations (VArr [])) "(variations || []).map") in
       let! urls := lift
         ((fix urls_of (l : list Val) : Result (list Val) :=
             match l with
             | [] => Ok []
             | v :: rest =>
                 let? id := get_prop v "id" in
                 let? more := urls_of rest in
                 Ok (VStr (contentDomain +:+ "/details/" +:+ to_string id) :: more)
             end) vs) in
       ret (jsonResult (VObj
         [ ("status", VStr "complete");
           ("track", track);
           ("variations", or_else variations (VArr []));
           ("total_variations", length_plus_one variations);
           ("listen_urls",
            VArr (VStr (contentDomain +:+ "/details/" +:+ to_string (opt_prop track "id"))
                    :: urls)) ]))
     else
       let status := opt_prop track "status" in
       let! safeStatus := lift (toLowerCase (or_else status (VStr "unknown"))
                                  "(track.status || 'unknown')") in
       ret (jsonResult (VObj
         [ ("status", VStr safeStatus);
           ("track", track);
           ("variations", VArr []);
           ("message", VStr
              (if is_string status "QUEUED" then "Track is queued for generation..."
               else if is_string status "GENERATING" then "Track is being generated..."
               else "Status: " +:+ to_string (or_else status (VStr "unknown")))) ])))
    (fun err => throw (TApi (wrapError err))).

Definition musicmation_generate_lyrics (params : Obj) : M AgentToolResult :=
  try_catch
    (let language := obj_get params "language" in
     let rawPrompt := obj_get params "prompt" in
     let prompt := if truthy language
                   then VStr ("Write the lyrics in " +:+ to_string language +:+ ". "
                                +:+ to_string rawPrompt)
                   else rawPrompt in
     let! result := call client "suno-proxy"
                      [ ("method", VStr "generateLyrics");
                        ("params", VObj [("prompt", prompt)]) ] None in
     ret (jsonResult result))
    (fun err => throw (TApi (wrapError err))).

(** *** src/tools/musicmation-projects.ts *)

Definition musicmation_list_projects (params : Obj) : M AgentToolResult :=
  try_catch
    (let! projects := query client "sunoma_projects"
                        (Some [ ("select", "id,name,content_type,description,created_at");
                                ("order", "created_at.desc") ])
                        None in
     ret (jsonResult (VObj
       [ ("projects", or_else projects (VArr []));
         ("count", opt_prop (or_else projects (VArr [])) "length") ])))
    (fun err => throw (TApi (wrapError err))).

Definition musicmation_get_project_context (params : Obj) : M AgentToolResult :=
  try_catch
    (let! result := rpc client "get-project-context" [] None in
     ret (jsonResult result))
    (fun err => throw (TApi (wrapError err))).

Definition musicmation_set_project_context (params : Obj) : M AgentToolResult :=
  try_catch
    (let! result := rpc client "set-project-context" (pick params ["context"]) None in
     ret (jsonResult result))
    (fun err => throw (TApi (wrapError err))).

Definition musicmation_delete_project (params : Obj) : M AgentToolResult :=
  try_catch
    (let projectId := obj_get params "project_id" in
     let confirmName := obj_get params "confirm_name" in
     (* Fetch the project to verify the name *)
     let! projects := query client "sunoma_projects"
                        (Some [ ("id", "eq." +:+ to_string projectId);
                                ("select", "id,name") ])
                        None in
     let project := opt_first projects in
     if negb (truthy project) then
       ret (jsonResult (VObj [ ("error", VStr "Project not found.");
                               ("deleted", VBool false) ]))
     else if negb (strict_eq (opt_prop project "name") confirmName) then
       ret (jsonResult (VObj
         [ ("error", VStr
              ("Confirmation name " +:+ QUOTE +:+ to_string confirmName +:+ QUOTE
                 +:+ " does not match project name " +:+ QUOTE
                 +:+ to_string (opt_prop project "name") +:+ QUOTE
                 +:+ ". Deletion aborted."));
           ("deleted", VBool false);
           ("hint", VStr "Ask the user to type the exact project name to confirm.") ]))
     else
       (* Perform the delete *)
       run! query client "sunoma_projects"
              (Some [("id", "eq." +:+ to_string projectId)])
              (Some {| QueryOptions.method := Some "DELETE"; QueryOptions.body := None |}) in
       ret (jsonResult (VObj
         [ ("deleted", VBool true);
           ("message", VStr
              ("Project " +:+ QUOTE +:+ to_string (opt_prop project "name") +:+ QUOTE
                 +:+ " and all its content have been permanently deleted.")) ])))
    (fun err => throw (TApi (wrapError err))).

(** *** The content tools ([musicmation_create_item]) *)

Definition creatableFields : list string :=
  [ "transcript"; "transcript_draft"; "short_summary"; "copyright";
    "artist"; "composer"; "genre"; "mood"; "tone"; "instrument";
    "album"; "style_d"; "style_e"; "style_f"; "sub_cluster";
    "type"; "series_name"; "part"; "image_url"; "audio_url";
    "generation_source" ].

Definition create_item_body (params : Obj) (generatedId : string) : Obj :=
  fold_left
    (fun body key =>
       if is_undefined (obj_get params key) then body
       else obj_set body key (obj_get params key))
    creatableFields
    [ ("id", VStr generatedId);
      ("title", obj_get params "title");
      ("project_id", obj_get params "project_id");
      ("item_type", or_else (obj_get params "item_type") (VStr "track"));
      ("status", or_else (obj_get params "status") (VStr "draft")) ].

Definition musicmation_create_item (params : Obj) : M AgentToolResult :=
  try_catch
    (let! ms := Date_now in
     let timestamp := (ms / 1000)%Z in
     let! bytes := getRandomValues 4 in
     let hex := foldr (fun b acc => hex_byte b +:+ acc) "" bytes in
     let generatedId := "item_" +:+ pretty timestamp +:+ "_" +:+ hex in
     let! items := query client "sunoma_items" None
                     (Some {| QueryOptions.method := Some "POST";
                              QueryOptions.body :=
                                Some (create_item_body params generatedId) |}) in
     let item := opt_first items in
     if negb (truthy item) then
       throw (TApi (new "Failed to create item — no ID returned" 500
                      (VStr "CREATE_FAILED") VUndef))
     else
       ret (jsonResult (VObj
         [ ("item", item);
           ("message", VStr ("Item " +:+ QUOTE +:+ to_string (obj_get params "title")
                               +:+ QUOTE +:+ " created successfully.")) ])))
    (fun err => throw (TApi (wrapError err))).

(** *** More of src/tools/musicmation-generate.ts *)

Definition bulk_enqueue_body (params : Obj) (trackIds : Val) (isSonauto : bool) : Obj :=
  if isSonauto then
    [ ("trackIds", trackIds);
      ("projectId", or_else (obj_get params "project_id") VNull);
      ("generationsRequested", VNum 1);
      ("prompt_strength", nullish_else (obj_get params "prompt_strength") (VNum 2));
      ("output_format", or_else (obj_get params "output_format") (VStr "ogg"));
      ("align_lyrics", nullish_else (obj_get params "align_lyrics") (VBool false)) ]
  else
    [ ("trackIds", trackIds);
      ("projectId", or_else (obj_get params "project_id") VNull);
      ("generationsRequested", VNum 1);
      ("model", or_else (obj_get params "model") (VStr "V5"));
      ("weirdness", nullish_else (obj_get params "weirdness") (VNum (1 # 2)));
      ("styleWeight", nullish_else (obj_get params "style_weight") (VNum (83 # 100))) ].

Definition musicmation_bulk_generate (params : Obj) : M AgentToolResult :=
  try_catch
    (let trackIds := obj_get params "track_ids" in
     let! count := lift (get_prop trackIds "length") in
     if negb (truthy count) then
       ret (jsonResult (VObj [ ("error", VStr "track_ids array is empty");
                               ("enqueued", VNum 0) ]))
     else
       let provider := or_else (obj_get params "provider") (VStr "suno") in
       let isSonauto := is_string provider "sonauto" in
       let endpoint := if isSonauto then "sonauto-generation-enqueue"
                       else "suno-generation-enqueue" in
       let! result := call client endpoint (bulk_enqueue_body params trackIds isSonauto) None in
       let variationMsg := if isSonauto then "Each produces 1 song (100 credits each)"
                           else "Each produces 2 variations" in
       let! enqueued := lift (get_prop result "enqueued") in
       ret (jsonResult (VObj
         [ ("provider", provider);
           ("enqueued", enqueued);
           ("skipped", opt_prop result "skipped");
           ("total", count);
           ("tier", opt_prop result "tier");
           ("message", VStr
              (if gt_zero enqueued
               then to_string enqueued +:+ " track(s) enqueued via " +:+ to_string provider
                      +:+ ". " +:+ variationMsg +:+ " — takes 30-90 seconds per track."
               else "No tracks enqueued. " +:+ to_string (opt_prop result "skipped")
                      +:+ " skipped (check tier limits or track status).")) ])))
    (fun err => throw (TApi (wrapError err))).

End MoreTools.

(** ** Vocabulary of the statements *)

(** The keys of an object whose value is not [undefined]. *)
Definition defined_keys (o : Obj) : gset string :=
  list_to_set (filter (fun k => is_undefined (obj_get o k) = false) (obj_keys o)).

(** The key set of an object. *)
Definition key_set (o : Obj) : gset string := list_to_set (obj_keys o).

(** The pause the retry loop takes after a failed [attempt] that is not the
    last one. *)
Definition backoff (maxRetries attempt : Z) : list Event :=
  if (attempt <? maxRetries)%Z then [Slept (RETRY_DELAY_MS * 2 ^ attempt)%Z] else [].

(** A retryable failure of one attempt that comes with a typed error, and
    that error: a response that is not a success, whose typed error can be
    built and is no client error, or a fault of the transport.  The loop
    retries one more kind of failure, which has no typed error of its own:
    an error response with the body [null] ([NULL_BODY_ERROR] below). *)
Definition retryable_failure (timeout : Z) (o : Http.FetchOutcome) : option CynapsApiError :=
  match o with
  | Http.Resolved r =>
      if Http.ok r then None
      else match api_error r with
           | Ok e => if isClientError e then None else Some e
           | Throw _ => None
           end
  | Http.Rejected (TApi _) => None
  | Http.Rejected t => Some (network_error timeout t)
  end.

(** The retry budget a call runs with. *)
Definition retry_budget (options : option CallOptions.t) : Z :=
  default MAX_RETRIES (options ≫= CallOptions.retries).

(** Sample data for the worked instances below. *)
Definition sample_client : CynapsApiClient :=
  {| baseUrl := "https://test-project.supabase.co";
     anonKey := "anon"; serviceRoleKey := "service"; userId := "user-1";
     agentId := None |}.

Definition json_response (code : Z) (v : Val) : Http.Response :=
  {| Http.status := code; Http.headers := []; Http.body := Http.BodyJson v |}.

Definition empty_response (code : Z) : Http.Response :=
  {| Http.status := code; Http.headers := [("content-length", "0")];
     Http.body := Http.BodyEmpty |}.

(** A backend that answers the [n]-th request with the [n]-th response of a
    script, and with the last one from then on. *)
Definition scripted (script : list Http.Response) (final : Http.Response) : Env :=
  {| respond := fun n _ => Http.Resolved (nth n script final);
     now := 1700000000123;
     random_byte := fun i => Z.of_nat (17 * i + 3) |}.

(** A 429 response that asks to come back after one second. *)
Definition rate_limited_response : Http.Response :=
  {| Http.status := 429; Http.headers := [("retry-after", "1")];
     Http.body := Http.BodyJson (VObj [("error", VStr "Rate limit exceeded")]) |}.

(** The four mutating tools of the write group: handler, remote method,
    allow-list and the instruction added to a confirmation envelope. *)
Record WriteTool : Type := {
  execute : (Val -> string) -> CynapsApiClient -> Obj -> M AgentToolResult;
  rpc_method : string;
  allow_list : list string;
  instruction : string;
}.

Definition write_tools : list WriteTool :=
  [ {| execute := musicmation_rate_tracks;
       rpc_method := "rate-tracks";
       allow_list := ["ratings"; "confirmation_token"];
       instruction := "Present this action to the user. Call again with the confirmation_token when approved." |};
    {| execute := musicmation_create_album;
       rpc_method := "create-album";
       allow_list := ["title"; "track_ids"; "project_id"; "genre"; "description";
                      "confirmation_token"];
       instruction := "Present this album creation to the user. Call again with the confirmation_token when approved." |};
    {| execute := musicmation_set_dramaturgy;
       rpc_method := "set-dramaturgy";
       allow_list := ["album_id"; "tracks"; "confirmation_token"];
       instruction := "Present this dramaturgy plan to the user. Call again with the confirmation_token when approved." |};
    {| execute := musicmation_bulk_rename;
       rpc_method := "bulk-rename-tracks";
       allow_list := ["renames"; "confirmation_token"];
       instruction := "Present these renames to the user. Call again with the confirmation_token when approved." |} ].

(** The confirmation envelope of the handler tests. *)
Definition CONFIRM_RESPONSE : Obj :=
  [ ("confirmation_required", VBool true);
    ("autonomy_level", VStr "suggest");
    ("capability", VStr "rate_tracks");
    ("confirmation_token", VStr "tok-abc");
    ("expires_in", VNum 300);
    ("message", VStr "Please confirm rating") ].

(** The identifier [musicmation_generate] makes up for the new track. *)
Definition generated_track_id (env : Env) : string :=
  "track_" +:+ pretty (now env / 1000)%Z +:+ "_"
    +:+ foldr (fun b acc => hex_byte b +:+ acc) ""
          (map (fun i => (random_byte env i mod 256)%Z) (seq 0 4)).

(** The two requests of [musicmation_generate]. *)
Definition create_track_options (params : Obj) (env : Env) : option QueryOptions.t :=
  Some {| QueryOptions.method := Some "POST";
          QueryOptions.body :=
            Some (create_track_body params (generated_track_id env)
                    (is_string (or_else (obj_get params "provider") (VStr "suno")) "sonauto")) |}.

Definition enqueue_endpoint (params : Obj) : string :=
  if is_string (or_else (obj_get params "provider") (VStr "suno")) "sonauto"
  then "sonauto-generation-enqueue" else "suno-generation-enqueue".

(** A backend that cannot be reached: every [fetch] rejects. *)
Definition unreachable (fault : Thrown) : Env :=
  {| respond := fun _ _ => Http.Rejected fault;
     now := 1700000000123;
     random_byte := fun i => Z.of_nat (17 * i + 3) |}.

(** The events of [rounds] failed rounds of the retry loop in a row, the
    first of them at [attempt]. *)
Fixpoint failed_rounds (req : Http.Request) (maxRetries : Z) (rounds : nat) (attempt : Z)
    : list Event :=
  match rounds with
  | O => []
  | S rounds' =>
      Fetched req :: backoff maxRetries attempt
        ++ failed_rounds req maxRetries rounds' (attempt + 1)
  end.

(** The time slept in a log, in milliseconds. *)
Fixpoint slept_total (w : list Event) : Z :=
  match w with
  | [] => 0
  | Slept ms :: w' => ms + slept_total w'
  | Fetched _ :: w' => slept_total w'
  end.

(** An event [call] may add to the log: its one request, or a pause of the
    exponential schedule before a retry that the budget allows. *)
Definition call_event (req : Http.Request) (budget : Z) (ev : Event) : Prop :=
  ev = Fetched req
  \/ exists attempt, (0 <= attempt < budget)%Z /\ ev = Slept (RETRY_DELAY_MS * 2 ^ attempt).

Fixpoint ends_with_slash (s : string) : bool :=
  match s with
  | EmptyString => false
  | String a EmptyString => Ascii.eqb a "/"
  | String _ s' => ends_with_slash s'
  end.

(** The value of a header in a header set. *)
Definition header_value (headers : list (string * string)) (name : string) : option string :=
  snd <$> find (fun h => String.eqb (fst h) name) headers.

(** The first of several optional strings that is present and not empty. *)
Fixpoint first_present (sources : list (option string)) : option string :=
  match sources with
  | [] => None
  | Some s :: rest => if String.eqb s "" then first_present rest else Some s
  | None :: rest => first_present rest
  end.

(** The tools that forward sanitized parameters to a remote method: handler,
    remote method and allow-list. *)
Record ForwardingTool : Type := {
  run : (Val -> string) -> CynapsApiClient -> Obj -> M AgentToolResult;
  remote : string;
  allowed : list string;
}.

Definition forwarding_tools : list ForwardingTool :=
  [ {| run := musicmation_rate_tracks; remote := "rate-tracks";
       allowed := ["ratings"; "confirmation_token"] |};
    {| run := musicmation_create_album; remote := "create-album";
       allowed := ["title"; "track_ids"; "project_id"; "genre"; "description";
                   "confirmation_token"] |};
    {| run := musicmation_set_dramaturgy; remote := "set-dramaturgy";
       allowed := ["album_id"; "tracks"; "confirmation_token"] |};
    {| run := musicmation_bulk_rename; remote := "bulk-rename-tracks";
       allowed := ["renames"; "confirmation_token"] |};
    {| run := musicmation_search_tracks; remote := "search-tracks";
       allowed := ["mood"; "genre"; "energy_level"; "bpm_range"; "key"; "text"; "limit"] |};
    {| run := musicmation_browse_styles; remote := "browse-styles";
       allowed := ["query"; "category"; "tags"; "limit"; "detail_ids"] |};
    {| run := musicmation_recommend; remote := "recommend";
       allowed := ["mood"; "energy"; "context"; "exclude_ids"; "limit"] |};
    {| run := musicmation_get_top_rated; remote := "get-top-rated";
       allowed := ["min_rating"; "project_id"; "limit"] |};
    {| run := musicmation_browse_influence_groups; remote := "browse-influence-groups";
       allowed := ["project_id"; "query"; "limit"] |};
    {| run := musicmation_get_influence_group_detail; remote := "get-influence-group-detail";
       allowed := ["group_id"] |};
    {| run := musicmation_set_project_context; remote := "set-project-context";
       allowed := ["context"] |} ].

(** A request to the RPC endpoint that carries, as parameters of [method],
    only allow-listed fields, each with the value the caller gave it. *)
Definition sanitized_request (client : CynapsApiClient) (method : string)
    (allowed : list string) (params : Obj) (req : Http.Request) : Prop :=
  Http.url req = baseUrl client +:+ "/functions/v1/agent-tools"
  /\ exists forwarded,
       Http.payload req = Some (VObj [("method", VStr method); ("params", VObj forwarded)])
       /\ forall k, k ∈ obj_keys forwarded -> k ∈ allowed /\ obj_get forwarded k = obj_get params k.

(** The handlers whose whole body stands in [try { ... } catch (err) { throw
    wrapError(err) }]. *)
Definition wrapped_handlers (stringify : Val -> string) (client : CynapsApiClient)
    (contentDomain : string) : list (Obj -> M AgentToolResult) :=
  [ cynaps3_preflight stringify client;
    musicmation_bulk_generate stringify client;
    musicmation_search_tracks stringify client;
    musicmation_browse_styles stringify client;
    musicmation_library_stats stringify client;
    musicmation_recommend stringify client;
    musicmation_get_personas stringify client;
    musicmation_get_top_rated stringify client;
    musicmation_browse_influence_groups stringify client;
    musicmation_get_influence_group_detail stringify client;
    musicmation_poll_status stringify client contentDomain;
    musicmation_generate_lyrics stringify client;
    musicmation_rate_tracks stringify client;
    musicmation_create_album stringify client;
    musicmation_set_dramaturgy stringify client;
    musicmation_bulk_rename stringify client;
    musicmation_list_projects stringify client;
    musicmation_get_project_context stringify client;
    musicmation_set_project_context stringify client;
    musicmation_delete_project stringify client;
    musicmation_create_item stringify client;
    musicmation_update_item stringify client ].


Definition CREATE_TRACK_FAILED : CynapsApiError :=
  new "Failed to create track item — no ID returned" 500 (VStr "CREATE_FAILED") VUndef.



Definition poll_track_params (params : Obj) : option (list (string * string)) :=
  Some [ ("id", "eq." +:+ to_string (obj_get params "track_id"));
         ("select", TRACK_SELECT) ].



Definition STATUS_UNAVAILABLE : string := "Could not fetch status. Please try again.".

(** The preflight results of the test fixtures. *)
Definition PREFLIGHT_READY : Val :=
  VObj [ ("ready", VBool true);
         ("checks", VObj [ ("authenticated", VBool true); ("suno_api_key", VBool true);
                           ("credits_available", VNum 500); ("tier", VStr "paid");
                           ("daily_used", VNum 3); ("daily_limit", VNum 999) ]);
         ("actions_needed", VArr []) ].

Definition PREFLIGHT_NOT_READY : Val :=
  VObj [ ("ready", VBool false);
         ("checks", VObj [ ("authenticated", VBool true); ("suno_api_key", VBool false);
                           ("credits_available", VNull); ("tier", VStr "free");
                           ("daily_used", VNum 0); ("daily_limit", VNum 5) ]);
         ("actions_needed",
          VArr [ VObj [ ("issue", VStr "NO_API_KEY");
                        ("message", VStr "No Suno API key configured");
                        ("instructions",
                         VStr "Go to Settings > API Keys to add your Suno API key") ] ]) ].

(** The identifier [musicmation_create_item] makes up, and its request. *)
Definition generated_item_id (env : Env) : string :=
  "item_" +:+ pretty (now env / 1000)%Z +:+ "_"
    +:+ foldr (fun b acc => hex_byte b +:+ acc) ""
          (map (fun i => (random_byte env i mod 256)%Z) (seq 0 4)).

Definition create_item_options (params : Obj) (env : Env) : option QueryOptions.t :=
  Some {| QueryOptions.method := Some "POST";
          QueryOptions.body := Some (create_item_body params (generated_item_id env)) |}.

Definition CREATE_ITEM_FAILED : CynapsApiError :=
  new "Failed to create item — no ID returned" 500 (VStr "CREATE_FAILED") VUndef.

(** The keys [musicmation_create_item] always writes. *)
Definition ITEM_KEYS : list string := ["id"; "title"; "project_id"; "item_type"; "status"].

(** The required settings as [parseConfig] resolves them, in the order it
    checks them: the plugin configuration first, then the environment. *)
Definition required_settings (penv : ProcessEnv.t) (pluginConfig : option Obj)
    : list (string * option string) :=
  [ ("supabaseUrl",
     first_present [getString pluginConfig "supabaseUrl"; ProcessEnv.CYNAPS3_SUPABASE_URL penv]);
    ("supabaseAnonKey",
     first_present [getString pluginConfig "supabaseAnonKey"; ProcessEnv.CYNAPS3_ANON_KEY penv]);
    ("serviceRoleKey",
     first_present [getString pluginConfig "serviceRoleKey";
                    ProcessEnv.CYNAPS3_SERVICE_ROLE_KEY penv]);
    ("userId",
     first_present [getString pluginConfig "userId"; ProcessEnv.CYNAPS3_USER_ID penv]) ].

(** The first required setting that no source provides. *)
Definition first_missing (settings : list (string * option string)) : option string :=
  fst <$> find (fun s => negb (nonempty (snd s))) settings.

(** Every factory of the musicmation module, after the core tool. *)
Definition all_registered (api : Api) : Api :=
  registerMusicmationContentTools
    (registerMusicmationProjectTools
       (registerMusicmationWriteTools
          (registerMusicmationLibraryTools
             (registerMusicmationGenerateTool (registerPreflightTool api))))).

(** An error response whose body is the JSON document [null]: reading
    [errorBody.error] throws, the [catch] block of the loop takes the
    [TypeError] for a fault of the transport. *)
Definition NULL_BODY_ERROR : CynapsApiError :=
  new "Cannot read properties of null (reading 'error')" 0 (VStr "NETWORK_ERROR") VUndef.

(** * Properties *)

(** ** Worked instances, the unit tests of the repository among them *)

Example test_pick :
  pick [("mood", VStr "calm"); ("genre", VStr "ambient"); ("evil", VStr "DROP TABLE")]
       ["mood"; "genre"]
  = [("mood", VStr "calm"); ("genre", VStr "ambient")]
  /\ pick [("mood", VArr [VStr "calm"]); ("__proto_pollution__", VBool true);
           ("sql_injection", VStr "DROP TABLE"); ("constructor", VStr "attack")] ["mood"]
     = [("mood", VArr [VStr "calm"])]
  /\ pick [("mood", VStr "calm")] ["mood"; "genre"; "energy"] = [("mood", VStr "calm")]
  /\ pick [("mood", VStr "calm"); ("genre", VUndef)] ["mood"; "genre"] = [("mood", VStr "calm")]
  /\ pick [("mood", VNull); ("genre", VStr "rock")] ["mood"; "genre"]
     = [("mood", VNull); ("genre", VStr "rock")]
  /\ pick [("a", VNum 1)] ["b"; "c"] = []
  /\ pick [] ["mood"; "genre"] = [].
Proof. repeat split. Qed.

Example test_pick_prototype :
  Proto.pick [("mood", VStr "calm")] ["constructor"; "toString"]
  = Some {| Proto.prototype := Proto.ObjectPrototype;
            Proto.own := [ ("constructor", Proto.Builtin "constructor");
                           ("toString", Proto.Builtin "toString") ] |}
  /\ Proto.pick [("mood", VStr "calm")] ["__proto__"; "mood"]
     = Some (Proto.plain [("mood", VStr "calm")])
  /\ Proto.pick [("__proto__", VObj [("genre", VStr "rock")]); ("mood", VStr "calm")]
       ["__proto__"; "mood"; "genre"]
     = Some {| Proto.prototype := Proto.InputObject [("genre", VStr "rock")];
               Proto.own := [("mood", Proto.Data (VStr "calm"))] |}
  /\ Proto.pick [("__proto__", VNull)] ["__proto__"; "__proto__"]
     = Some {| Proto.prototype := Proto.NullPrototype;
               Proto.own := [("__proto__", Proto.Data VNull)] |}
  /\ Proto.pick [("__proto__", VNum 1); ("constructor", VUndef)] ["__proto__"; "constructor"]
     = Some Proto.empty.
Proof. repeat split. Qed.

Example test_isConfirmationResponse :
  isConfirmationResponse (VObj CONFIRM_RESPONSE) = true
  /\ isConfirmationResponse (VObj [("confirmation_required", VBool true)]) = true
  /\ isConfirmationResponse VNull = false
  /\ isConfirmationResponse VUndef = false
  /\ isConfirmationResponse (VStr "hello") = false
  /\ isConfirmationResponse (VNum 42) = false
  /\ isConfirmationResponse (VObj [("ready", VBool true)]) = false
  /\ isConfirmationResponse (VObj [("confirmation_required", VBool false)]) = false
  /\ isConfirmationResponse (VObj [("confirmation_required", VStr "true")]) = false.
Proof. repeat split. Qed.

Example test_error_classification :
  isClientError (new "" 400 VUndef VUndef) = true
  /\ isClientError (new "" 499 VUndef VUndef) = true
  /\ isClientError (new "" 500 VUndef VUndef) = false
  /\ isServerError (new "" 503 VUndef VUndef) = true
  /\ isServerError (new "" 400 VUndef VUndef) = false
  /\ isAuthError (new "" 403 VUndef VUndef) = true
  /\ isAuthError (new "" 400 VUndef VUndef) = false
  /\ isRateLimited (new "" 429 VUndef VUndef) = true
  /\ isRateLimited (new "" 400 VUndef VUndef) = false.
Proof. repeat split. Qed.

Example test_wrapError :
  wrapError (TApi (new "test" 400 (VStr "TEST") VUndef)) = new "test" 400 (VStr "TEST") VUndef
  /\ wrapError (TError "something broke") = new "something broke" 500 (VStr "PLUGIN_ERROR") VUndef
  /\ wrapError (TOther (VStr "oops")) = new "oops" 500 (VStr "UNKNOWN_ERROR") VUndef
  /\ message (wrapError (TOther VNull)) = "null".
Proof. repeat split. Qed.

(** A 502 whose body is no JSON: three requests, then [HTTP 502]. *)
Example test_non_json_error_response :
  let bad_gateway := {| Http.status := 502; Http.headers := [];
                        Http.body := Http.BodyInvalid "not json" |} in
  let req := call_request sample_client "agent-tools"
               [("method", VStr "test"); ("params", VObj [])] None in
  rpc sample_client "test" [] None (scripted [] bad_gateway) []
  = (Throw (TApi (new "HTTP 502" 502 VUndef VUndef)),
     [Fetched req; Slept 1000; Fetched req; Slept 2000; Fetched req]).
Proof. reflexivity. Qed.

Example test_query_4xx :
  fst (query sample_client "nonexistent" None None
         (scripted [] (json_response 404 (VObj [("error", VStr "Not found")]))) [])
  = Throw (TApi (new "Not found" 404 VUndef VUndef)).
Proof. reflexivity. Qed.

Example test_parseRetryAfter :
  parseRetryAfter rate_limited_response = 1%Z
  /\ parseRetryAfter (json_response 429 VNull) = 5%Z
  /\ parseRetryAfter {| Http.status := 429; Http.headers := [("retry-after", "3600")];
                        Http.body := Http.BodyEmpty |} = 60%Z
  /\ parseRetryAfter {| Http.status := 429;
                        Http.headers := [("retry-after", "Wed, 21 Oct 2015 07:28:00 GMT")];
                        Http.body := Http.BodyEmpty |} = 5%Z.
Proof. repeat split. Qed.

(** ** Objects *)

Lemma obj_get_set (o : Obj) (k k' : string) (v : Val) :
  obj_get (obj_set o k v) k' = if String.eqb k k' then v else obj_get o k'.
Proof.
  induction o as [|[k0 v0] o IH]; simpl.
  - destruct (String.eqb_spec k k'); reflexivity.
  - destruct (String.eqb_spec k0 k) as [->|Hne]; simpl.
    + destruct (String.eqb_spec k k'); reflexivity.
    + rewrite IH.
      destruct (String.eqb_spec k0 k') as [->|Hne']; [|reflexivity].
      destruct (String.eqb_spec k k'); congruence.
Qed.

Lemma obj_keys_set (o : Obj) (k k' : string) (v : Val) :
  k' ∈ obj_keys (obj_set o k v) <-> k' = k \/ k' ∈ obj_keys o.
Proof.
  unfold obj_keys.
  induction o as [|[k0 v0] o IH]; simpl.
  - rewrite list_elem_of_singleton. set_solver.
  - destruct (String.eqb_spec k0 k) as [->|Hne]; simpl.
    + set_solver.
    + rewrite !elem_of_cons, IH. tauto.
Qed.

Lemma obj_get_defined_key (o : Obj) (k : string) :
  obj_get o k <> VUndef -> k ∈ obj_keys o.
Proof.
  unfold obj_keys.
  induction o as [|[k0 v0] o IH]; simpl; [congruence|].
  destruct (String.eqb_spec k0 k) as [->|Hne]; set_solver.
Qed.

Lemma is_undefined_false (v : Val) : is_undefined v = false <-> v <> VUndef.
Proof. destruct v; simpl; split; congruence. Qed.

Lemma elem_of_defined_keys (o : Obj) (k : string) :
  k ∈ defined_keys o <-> obj_get o k <> VUndef.
Proof.
  unfold defined_keys.
  rewrite elem_of_list_to_set, list_elem_of_filter, is_undefined_false.
  split; [tauto|]. intros H. split; [exact H|]. by apply obj_get_defined_key.
Qed.

(** ** [pick] *)

Section Pick.
Variable obj : Obj.

Lemma pick_from_keys (keys : list string) (acc : Obj) (k : string) :
  k ∈ obj_keys (fold_left (pick_step obj) keys acc)
  <-> k ∈ obj_keys acc \/ (k ∈ keys /\ obj_get obj k <> VUndef).
Proof.
  revert acc. induction keys as [|k0 keys IH]; intros acc; cbn [fold_left].
  - set_solver.
  - rewrite IH. unfold pick_step.
    destruct (is_undefined (obj_get obj k0)) eqn:Hu.
    + assert (obj_get obj k0 = VUndef) by (destruct (obj_get obj k0); by inversion Hu).
      rewrite elem_of_cons. split; [tauto|].
      intros [?|[[->|?] ?]]; tauto.
    + apply is_undefined_false in Hu.
      rewrite obj_keys_set, elem_of_cons. split; [|intros [?|[[->|?] ?]]; tauto].
      intros [[->|?]|[? ?]]; tauto.
Qed.

Lemma pick_from_get (keys : list string) (acc : Obj) (k : string) :
  obj_get (fold_left (pick_step obj) keys acc) k
  = if bool_decide (k ∈ keys) && negb (is_undefined (obj_get obj k))
    then obj_get obj k else obj_get acc k.
Proof.
  revert acc. induction keys as [|k0 keys IH]; intros acc; cbn [fold_left].
  - reflexivity.
  - rewrite IH. unfold pick_step.
    destruct (is_undefined (obj_get obj k)) eqn:Hu; simpl.
    + rewrite !andb_false_r.
      destruct (is_undefined (obj_get obj k0)) eqn:Hu0; [reflexivity|].
      rewrite obj_get_set. destruct (String.eqb_spec k0 k) as [->|]; congruence.
    + rewrite !andb_true_r.
      destruct (bool_decide_reflect (k ∈ keys)) as [Hin|Hin].
      * rewrite bool_decide_eq_true_2 by (by right). reflexivity.
      * destruct (decide (k = k0)) as [->|Hne].
        -- rewrite bool_decide_eq_true_2 by (by left).
           rewrite Hu, obj_get_set, String.eqb_refl. reflexivity.
        -- rewrite bool_decide_eq_false_2 by (rewrite elem_of_cons; tauto).
           destruct (is_undefined (obj_get obj k0)); [reflexivity|].
           rewrite obj_get_set. destruct (String.eqb_spec k0 k); congruence.
Qed.

End Pick.

Lemma pick_loop_spec (st : list Obj) (obj out : nat) (keys : list string) (o acc : Obj) :
  st !! obj = Some o ->
  st !! out = Some acc ->
  obj <> out ->
  Store.pick_loop st obj out keys = <[out := fold_left (pick_step o) keys acc]> st.
Proof.
  revert st acc. induction keys as [|k keys IH]; intros st acc Hobj Hout Hne; simpl.
  - symmetry. by apply list_insert_id.
  - unfold Store.read at 1 2. rewrite Hobj. unfold pick_step at 2.
    destruct (is_undefined (obj_get o k)); [by apply IH|].
    assert (Hw : Store.write st out k (obj_get o k) = <[out := obj_set acc k (obj_get o k)]> st).
    { unfold Store.write. apply list_eq. intros i.
      destruct (decide (i = out)) as [->|Hi].
      - rewrite list_lookup_alter_eq, Hout. simpl.
        rewrite list_lookup_insert_eq; [reflexivity|]. by eapply lookup_lt_Some.
      - rewrite list_lookup_alter_ne, list_lookup_insert_ne by done. reflexivity. }
    rewrite Hw.
    rewrite (IH _ (obj_set acc k (obj_get o k))).
    + by rewrite list_insert_insert_eq.
    + by rewrite list_lookup_insert_ne.
    + rewrite list_lookup_insert_eq; [reflexivity|]. by eapply lookup_lt_Some.
    + exact Hne.
Qed.

(** ** [pick] with the prototype *)

Lemma obj_get_not_key (o : Obj) (k : string) : k ∉ obj_keys o -> obj_get o k = VUndef.
Proof.
  intros Hk. destruct (obj_get o k) eqn:Hget; try reflexivity;
    exfalso; apply Hk, obj_get_defined_key; congruence.
Qed.

Lemma own_get_set (props : list (string * Proto.Value)) (k k' : string) (v : Proto.Value) :
  Proto.own_get (Proto.own_set props k v) k'
  = if String.eqb k k' then Some v else Proto.own_get props k'.
Proof.
  induction props as [|[k0 v0] props IH]; simpl.
  - destruct (String.eqb_spec k k'); reflexivity.
  - destruct (String.eqb_spec k0 k) as [->|Hne]; simpl.
    + destruct (String.eqb_spec k k'); reflexivity.
    + rewrite IH.
      destruct (String.eqb_spec k0 k') as [->|Hne']; [|reflexivity].
      destruct (String.eqb_spec k k'); congruence.
Qed.

Lemma own_get_key (props : list (string * Proto.Value)) (k : string) (v : Proto.Value) :
  Proto.own_get props k = Some v -> k ∈ map fst props.
Proof.
  induction props as [|[k0 v0] props IH]; simpl; [discriminate|].
  destruct (String.eqb_spec k0 k) as [->|Hne]; set_solver.
Qed.

Lemma own_set_plain (o : Obj) (k : string) (v : Val) :
  Proto.own_set (Proto.own (Proto.plain o)) k (Proto.Data v)
  = Proto.own (Proto.plain (obj_set o k v)).
Proof.
  simpl. induction o as [|[k0 v0] o IH]; simpl; [reflexivity|].
  destruct (String.eqb k0 k); simpl; [reflexivity|]. by rewrite IH.
Qed.

Lemma proto_not_function : "__proto__" ∉ Proto.FUNCTIONS.
Proof.
  intros Hin. unfold Proto.FUNCTIONS in Hin.
  repeat (apply elem_of_cons in Hin as [Hin|Hin]; [discriminate|]).
  by apply elem_of_nil in Hin.
Qed.

(** [pick] never asks for a function as prototype: the full [pick] has a
    result for every plain input object and every allow-list. *)
Lemma pick_step_defined (obj : Obj) (out : Proto.Object) (k : string) :
  exists out', Proto.pick_step obj out k = Some out'.
Proof.
  unfold Proto.pick_step.
  destruct (Proto.defined (Proto.get obj k)) eqn:Hdef; [|by exists out].
  unfold Proto.set.
  destruct (bool_decide (k ∈ Proto.own_keys out)
            || negb (Proto.reaches_setter (Proto.prototype out) k)) eqn:Hcreate;
    [by eexists|].
  apply orb_false_iff in Hcreate as [_ Hsetter].
  apply negb_false_iff in Hsetter. unfold Proto.reaches_setter in Hsetter.
  apply andb_true_iff in Hsetter as [Hproto _].
  apply String.eqb_eq in Hproto. subst k.
  unfold Proto.get in *.
  destruct (bool_decide ("__proto__" ∈ obj_keys obj)).
  - destruct (obj_get obj "__proto__"); simpl in Hdef; try discriminate; by eexists.
  - simpl. by eexists.
Qed.

Lemma pick_defined (obj : Obj) (keys : list string) :
  exists out, Proto.pick obj keys = Some out.
Proof.
  unfold Proto.pick, Proto.pick_loop. generalize Proto.empty.
  induction keys as [|k keys IH]; intros out; simpl; [by exists out|].
  destruct (pick_step_defined obj out k) as (out1 & ->). apply IH.
Qed.

(** Outside the names of [Object.prototype] a read sees the own properties
    only. *)
Lemma get_plain_name (obj : Obj) (k : string) :
  k ∉ Proto.MEMBERS -> Proto.get obj k = Proto.Data (obj_get obj k).
Proof.
  intros Hk. unfold Proto.get.
  destruct (bool_decide_reflect (k ∈ obj_keys obj)) as [Hin|Hout]; [reflexivity|].
  rewrite (obj_get_not_key _ _ Hout).
  destruct (String.eqb_spec k "__proto__") as [->|Hne].
  - exfalso. apply Hk. by left.
  - rewrite bool_decide_eq_false_2; [reflexivity|].
    intros Hin. apply Hk. by right.
Qed.

Lemma pick_step_plain (obj acc : Obj) (k : string) :
  k ∉ Proto.MEMBERS ->
  Proto.pick_step obj (Proto.plain acc) k = Some (Proto.plain (pick_step obj acc k)).
Proof.
  intros Hk. unfold Proto.pick_step, pick_step. rewrite (get_plain_name _ _ Hk).
  destruct (obj_get obj k) as [| |b|q|s|xs|o] eqn:Hget; simpl Proto.defined; cbv iota;
    try reflexivity; simpl is_undefined; cbv iota;
    unfold Proto.set;
    (replace (Proto.reaches_setter (Proto.prototype (Proto.plain acc)) k) with false;
     [|unfold Proto.reaches_setter;
       destruct (String.eqb_spec k "__proto__") as [->|Hne]; [|reflexivity];
       exfalso; apply Hk; by left]);
    rewrite orb_true_r; by rewrite own_set_plain.
Qed.

(** Where the allow-list names no property of [Object.prototype], the
    full [pick] is [pick] on the own properties. *)
Lemma pick_loop_plain (obj : Obj) (keys : list string) :
  Forall (fun k => k ∉ Proto.MEMBERS) keys ->
  forall acc,
    Proto.pick_loop obj keys (Some (Proto.plain acc))
    = Some (Proto.plain (fold_left (pick_step obj) keys acc)).
Proof.
  unfold Proto.pick_loop.
  induction 1 as [|k keys Hk _ IH]; intros acc; simpl; [reflexivity|].
  rewrite (pick_step_plain _ _ _ Hk). apply IH.
Qed.

Lemma pick_plain (obj : Obj) (keys : list string) :
  Forall (fun k => k ∉ Proto.MEMBERS) keys ->
  Proto.pick obj keys = Some (Proto.plain (pick obj keys)).
Proof. intros Hkeys. apply (pick_loop_plain obj keys Hkeys []). Qed.

(** An inherited function that the allow-list names is copied, and stays. *)
Lemma pick_step_inherited (obj : Obj) (out : Proto.Object) (k f : string) :
  f ∈ Proto.FUNCTIONS ->
  f ∉ obj_keys obj ->
  k = f \/ Proto.own_get (Proto.own out) f = Some (Proto.Builtin f) ->
  exists out',
    Proto.pick_step obj out k = Some out'
    /\ Proto.own_get (Proto.own out') f = Some (Proto.Builtin f).
Proof.
  intros Hf Hnot Hk.
  assert (Hne : f <> "__proto__") by (intros ->; by apply proto_not_function).
  unfold Proto.pick_step.
  destruct (decide (k = f)) as [->|Hkf].
  - assert (Hget : Proto.get obj f = Proto.Builtin f).
    { unfold Proto.get. rewrite bool_decide_eq_false_2 by exact Hnot.
      destruct (String.eqb_spec f "__proto__"); [contradiction|].
      by rewrite bool_decide_eq_true_2. }
    rewrite Hget. simpl Proto.defined. cbv iota. unfold Proto.set.
    replace (Proto.reaches_setter (Proto.prototype out) f) with false
      by (unfold Proto.reaches_setter; destruct (String.eqb_spec f "__proto__");
          [contradiction|reflexivity]).
    rewrite orb_true_r. eexists. split; [reflexivity|].
    simpl. by rewrite own_get_set, String.eqb_refl.
  - destruct Hk as [->|Hown]; [contradiction|].
    destruct (Proto.defined (Proto.get obj k)) eqn:Hdef; [|by exists out].
    unfold Proto.set.
    destruct (bool_decide (k ∈ Proto.own_keys out)
              || negb (Proto.reaches_setter (Proto.prototype out) k)) eqn:Hcreate.
    + eexists. split; [reflexivity|]. simpl. rewrite own_get_set.
      destruct (String.eqb_spec k f); [contradiction|exact Hown].
    + apply orb_false_iff in Hcreate as [_ Hsetter].
      apply negb_false_iff in Hsetter. unfold Proto.reaches_setter in Hsetter.
      apply andb_true_iff in Hsetter as [Hproto _].
      apply String.eqb_eq in Hproto. subst k.
      unfold Proto.get in *.
      destruct (bool_decide ("__proto__" ∈ obj_keys obj)).
      * destruct (obj_get obj "__proto__"); simpl in Hdef; try discriminate;
          by eexists.
      * simpl. by eexists.
Qed.

Lemma pick_loop_inherited (obj : Obj) (f : string) (keys : list string) :
  f ∈ Proto.FUNCTIONS ->
  f ∉ obj_keys obj ->
  forall out,
    f ∈ keys \/ Proto.own_get (Proto.own out) f = Some (Proto.Builtin f) ->
    exists out',
      Proto.pick_loop obj keys (Some out) = Some out'
      /\ Proto.own_get (Proto.own out') f = Some (Proto.Builtin f).
Proof.
  intros Hf Hnot. unfold Proto.pick_loop.
  induction keys as [|k keys IH]; intros out Hin; simpl.
  - destruct Hin as [Hin|Hown]; [by apply elem_of_nil in Hin|]. by exists out.
  - destruct (decide (k = f)) as [->|Hkf].
    + destruct (pick_step_inherited obj out f f Hf Hnot) as (out1 & -> & Hown1);
        [by left|]. apply IH. by right.
    + destruct Hin as [Hin|Hown].
      * apply elem_of_cons in Hin as [->|Hin]; [contradiction|].
        destruct (pick_step_defined obj out k) as (out1 & ->).
        apply IH. by left.
      * destruct (pick_step_inherited obj out k f Hf Hnot) as (out1 & -> & Hown1);
          [by right|]. apply IH. by right.
Qed.

(** C3.  [pick] copies what [obj[k]] finds, own or inherited: a function
    of [Object.prototype] that the allow-list names and the input does not
    have ends as an own key of the output.  The key set of the output is
    then not the allow-list intersected with the input's keys of defined
    value. *)
Theorem pick_copies_inherited (obj : Obj) (keys : list string) (k : string) :
  k ∈ keys ->
  k ∈ Proto.FUNCTIONS ->
  k ∉ obj_keys obj ->
  exists out,
    Proto.pick obj keys = Some out
    /\ Proto.own_get (Proto.own out) k = Some (Proto.Builtin k)
    /\ k ∈ Proto.key_set out
    /\ (k ∉ defined_keys obj)
    /\ Proto.key_set out <> list_to_set keys ∩ defined_keys obj.
Proof.
  intros Hk Hf Hnot.
  destruct (pick_loop_inherited obj k keys Hf Hnot Proto.empty) as (out & Hpick & Hown);
    [by left|].
  assert (Hin : k ∈ Proto.key_set out).
  { unfold Proto.key_set, Proto.own_keys. apply elem_of_list_to_set.
    by eapply own_get_key. }
  assert (Hundef : k ∉ defined_keys obj).
  { rewrite elem_of_defined_keys. intros Hdef. by apply Hnot, obj_get_defined_key. }
  exists out. repeat split; try assumption.
  intros Heq. rewrite Heq in Hin. apply elem_of_intersection in Hin as [_ Hin].
  contradiction.
Qed.

Lemma pick_copies_inherited_witness :
  exists out,
    Proto.pick [("mood", VStr "calm")] ["constructor"; "toString"] = Some out
    /\ Proto.own_get (Proto.own out) "constructor" = Some (Proto.Builtin "constructor")
    /\ "constructor" ∈ Proto.key_set out
    /\ ("constructor" ∉ defined_keys [("mood", VStr "calm")])
    /\ Proto.key_set out
       <> list_to_set ["constructor"; "toString"] ∩ defined_keys [("mood", VStr "calm")].
Proof.
  apply (pick_copies_inherited [("mood", VStr "calm")] ["constructor"; "toString"]
           "constructor").
  - by left.
  - by left.
  - intros Hin. apply elem_of_cons in Hin as [Hin|Hin]; [discriminate|].
    by apply elem_of_nil in Hin.
Defined.

(** ** The error classifier *)


Lemma rate_limited_is_client_error (e : CynapsApiError) :
  isRateLimited e = true -> isClientError e = true.
Proof. unfold isRateLimited, isClientError. lia. Qed.

(** C8.  The display message is a fixed sentence, whatever the raw
    message, when the status is 401 or 403 or at least 500; it is the raw
    message when the status is 429 or another client status. *)
Theorem userMessage_spec (e : CynapsApiError) :
  (status e = 401%Z \/ status e = 403%Z -> userMessage e = AUTH_MESSAGE)
  /\ ((500 <= status e)%Z -> userMessage e = SERVER_MESSAGE)
  /\ (status e = 429%Z -> userMessage e = message e)
  /\ ((400 <= status e < 500)%Z -> status e <> 401%Z -> status e <> 403%Z ->
      userMessage e = message e)
  /\ (forall raw, isAuthError e || isServerError e = true ->
      userMessage (new raw (status e) (code e) (errorId e)) = userMessage e).
Proof.
  unfold userMessage, isAuthError, isRateLimited, isServerError.
  repeat split.
  - intros [-> | ->]; reflexivity.
  - intros H.
    destruct (status e =? 401)%Z eqn:E1; [lia|].
    destruct (status e =? 403)%Z eqn:E2; [lia|]. simpl.
    destruct (status e =? 429)%Z eqn:E3; [lia|].
    destruct (500 <=? status e)%Z eqn:E4; [reflexivity|lia].
  - intros ->. reflexivity.
  - intros H H1 H2.
    destruct (status e =? 401)%Z eqn:E1; [lia|].
    destruct (status e =? 403)%Z eqn:E2; [lia|]. simpl.
    destruct (status e =? 429)%Z eqn:E3; [reflexivity|].
    destruct (500 <=? status e)%Z eqn:E4; [lia|reflexivity].
  - intros raw H. simpl.
    destruct ((status e =? 401) || (status e =? 403))%Z; [reflexivity|].
    simpl in H. rewrite H.
    destruct (status e =? 429)%Z eqn:E3; [lia|reflexivity].
Qed.

Lemma userMessage_spec_witness :
  userMessage (new "JWT expired" 401 VUndef VUndef) = AUTH_MESSAGE
  /\ userMessage (new "Deno panic at line 42" 503 VUndef VUndef) = SERVER_MESSAGE
  /\ userMessage (new "Rate limit exceeded" 429 VUndef VUndef) = "Rate limit exceeded"
  /\ userMessage (new "Invalid track_id" 400 VUndef VUndef) = "Invalid track_id".
Proof.
  split; [|split; [|split]].
  - destruct (userMessage_spec (new "JWT expired" 401 VUndef VUndef)) as (H & _).
    apply H. left. reflexivity.
  - destruct (userMessage_spec (new "Deno panic at line 42" 503 VUndef VUndef)) as (_ & H & _).
    apply H. simpl. lia.
  - destruct (userMessage_spec (new "Rate limit exceeded" 429 VUndef VUndef)) as (_ & _ & H & _).
    apply H. reflexivity.
  - destruct (userMessage_spec (new "Invalid track_id" 400 VUndef VUndef)) as (_ & _ & _ & H & _).
    apply H; simpl; lia.
Defined.

(** ** The authenticated caller *)

Lemma fetch_count_app (w1 w2 : list Event) :
  fetch_count (w1 ++ w2) = fetch_count w1 + fetch_count w2.
Proof.
  induction w1 as [|[req|ms] w1 IH]; simpl; [reflexivity| |]; rewrite IH; reflexivity.
Qed.

Lemma fetch_count_backoff (maxRetries attempt : Z) :
  fetch_count (backoff maxRetries attempt) = 0.
Proof. unfold backoff. destruct (attempt <? maxRetries)%Z; reflexivity. Qed.

Lemma json_throws (r : Http.Response) (t : Thrown) :
  Http.json r = Throw t -> exists msg, t = TError msg.
Proof.
  unfold Http.json. destruct (Http.body r); intros H; inversion H; eauto.
Qed.



Lemma api_error_status (r : Http.Response) (e : CynapsApiError) :
  api_error r = Ok e -> status e = Http.status r.
Proof.
  unfold api_error. destruct (error_message r (error_body r)); intros H; inversion H.
  reflexivity.
Qed.

Lemma client_error_not_ok (r : Http.Response) (e : CynapsApiError) :
  api_error r = Ok e -> isClientError e = true -> Http.ok r = false.
Proof.
  intros H Hc. apply api_error_status in H.
  unfold isClientError in Hc. unfold Http.ok. lia.
Qed.

Section Attempt.
Variables (env : Env) (req : Http.Request) (maxRetries attempt : Z) (w : list Event).

(** A success whose body is a JSON document ends the call with it. *)
Lemma call_attempt_returns (r : Http.Response) (v : Val) :
  respond env (fetch_count w) req = Http.Resolved r ->
  Http.ok r = true ->
  Http.json r = Ok v ->
  call_attempt req maxRetries attempt env w = (Ok (Returned v), w ++ [Fetched req]).
Proof.
  intros Hr Hok Hj.
  unfold call_attempt, try_catch, bind, fetch, lift, ret.
  rewrite Hr, Hok, Hj. reflexivity.
Qed.

(** A client error is thrown at once: nothing is slept, the loop ends. *)
Lemma call_attempt_client_error (r : Http.Response) (e : CynapsApiError) :
  respond env (fetch_count w) req = Http.Resolved r ->
  api_error r = Ok e ->
  isClientError e = true ->
  call_attempt req maxRetries attempt env w = (Throw (TApi e), w ++ [Fetched req]).
Proof.
  intros Hr He Hc.
  unfold call_attempt, try_catch, bind, fetch, lift, ret, throw.
  rewrite Hr, (client_error_not_ok r e He Hc), He, Hc. reflexivity.
Qed.

(** A retryable failure sets [lastError] and, unless the attempt is the
    last one, sleeps for the exponential delay. *)
Lemma call_attempt_retryable (e : CynapsApiError) :
  retryable_failure (Http.timeout req) (respond env (fetch_count w) req) = Some e ->
  call_attempt req maxRetries attempt env w
  = (Ok (Failed e), (w ++ [Fetched req]) ++ backoff maxRetries attempt).
Proof.
  unfold retryable_failure, call_attempt, try_catch, bind, fetch, lift, ret, throw, sleep, backoff.
  destruct (respond env (fetch_count w) req) as [r|t].
  - destruct (Http.ok r); [discriminate|].
    destruct (api_error r) as [e'|t]; [|discriminate].
    destruct (isClientError e') eqn:Hc; [discriminate|].
    intros H; inversion H; subst e'.
    assert (Hrl : isRateLimited e = false).
    { destruct (isRateLimited e) eqn:Hrl; [|reflexivity].
      apply rate_limited_is_client_error in Hrl. congruence. }
    rewrite Hrl.
    destruct (attempt <? maxRetries)%Z; rewrite ?app_nil_r; reflexivity.
  - destruct t as [e'|msg|v]; [discriminate| |];
      intros H; inversion H; subst;
      destruct (attempt <? maxRetries)%Z; rewrite ?app_nil_r; reflexivity.
Qed.


(** A success whose body is no JSON document is handled as a fault of the
    transport: classified NETWORK_ERROR and retried. *)
Lemma call_attempt_unparsed (r : Http.Response) (t : Thrown) :
  respond env (fetch_count w) req = Http.Resolved r ->
  Http.ok r = true ->
  Http.json r = Throw t ->
  call_attempt req maxRetries attempt env w
  = (Ok (Failed (network_error (Http.timeout req) t)),
     (w ++ [Fetched req]) ++ backoff maxRetries attempt).
Proof.
  intros Hr Hok Hj.
  destruct (json_throws r t Hj) as [msg ->].
  unfold call_attempt, try_catch, bind, fetch, lift, ret, throw, sleep, backoff.
  rewrite Hr, Hok, Hj.
  destruct (attempt <? maxRetries)%Z; rewrite ?app_nil_r; reflexivity.
Qed.

End Attempt.

Lemma call_loop_round (env : Env) (req : Http.Request) (maxRetries : Z)
    (rounds : nat) (attempt : Z) (last : option CynapsApiError) (w : list Event) :
  call_loop req maxRetries (S rounds) attempt last env w
  = match call_attempt req maxRetries attempt env w with
    | (Ok (Returned v), w') => (Ok v, w')
    | (Ok (Failed e), w') => call_loop req maxRetries rounds (attempt + 1) (Some e) env w'
    | (Throw t, w') => (Throw t, w')
    end.
Proof.
  simpl. unfold bind at 1.
  destruct (call_attempt req maxRetries attempt env w) as [[[v|e]|t] w']; reflexivity.
Qed.

(** After [k] retryable failures in a row the loop stands [k] rounds
    further, [k] more requests sent, [lastError] the latest failure. *)
Lemma call_loop_failures (env : Env) (req : Http.Request) (maxRetries : Z)
    (errs : nat -> CynapsApiError) (k : nat) :
  forall (rounds : nat) (attempt : Z) (last : option CynapsApiError) (w : list Event),
    (forall i, i < k ->
       retryable_failure (Http.timeout req) (respond env (fetch_count w + i) req)
       = Some (errs (fetch_count w + i))) ->
    exists w',
      fetch_count w' = fetch_count w + k
      /\ (k = 0 -> w' = w)
      /\ call_loop req maxRetries (k + rounds) attempt last env w
         = call_loop req maxRetries rounds (attempt + Z.of_nat k)
             (match k with O => last | S k' => Some (errs (fetch_count w + k')) end) env w'.
Proof.
  induction k as [|k IH]; intros rounds attempt last w Hf.
  - exists w. split; [lia|]. split; [reflexivity|]. simpl. by rewrite Z.add_0_r.
  - assert (H0 := Hf 0 ltac:(lia)). rewrite Nat.add_0_r in H0.
    set (w1 := (w ++ [Fetched req]) ++ backoff maxRetries attempt).
    assert (Hw1 : fetch_count w1 = S (fetch_count w)).
    { unfold w1. rewrite !fetch_count_app, fetch_count_backoff. simpl. lia. }
    destruct (IH rounds (attempt + 1)%Z (Some (errs (fetch_count w))) w1) as (w' & Hc & _ & Hl).
    { intros i Hi. rewrite Hw1.
      replace (S (fetch_count w) + i) with (fetch_count w + S i) by lia.
      apply Hf. lia. }
    exists w'. split; [lia|]. split; [discriminate|].
    replace (S k + rounds) with (S (k + rounds)) by lia.
    rewrite call_loop_round, (call_attempt_retryable _ _ _ _ _ _ H0).
    fold w1. rewrite Hl.
    replace (attempt + 1 + Z.of_nat k)%Z with (attempt + Z.of_nat (S k))%Z by lia.
    destruct k as [|k'].
    + rewrite Nat.add_0_r. reflexivity.
    + rewrite Hw1.
      replace (fetch_count w + S k') with (S (fetch_count w) + k') by lia.
      reflexivity.
Qed.

Lemma call_unfold (client : CynapsApiClient) (fn : string) (body : Obj)
    (options : option CallOptions.t) :
  call client fn body options
  = call_loop (call_request client fn body options) (retry_budget options)
      (Z.to_nat (retry_budget options + 1)) 0 None.
Proof. reflexivity. Qed.

(** C6.  When an attempt of a call receives a response whose typed error is
    a client error, the call throws that error at once: the request just
    sent is the last event, nothing is slept and nothing is sent again.
    When no failure came before, the call is attempted exactly once. *)
Theorem call_client_error_never_retried
    (client : CynapsApiClient) (fn : string) (body : Obj)
    (options : option CallOptions.t) (env : Env) (w : list Event)
    (errs : nat -> CynapsApiError) (k : nat) (r : Http.Response) (e : CynapsApiError) :
  let req := call_request client fn body options in
  (Z.of_nat k <= retry_budget options)%Z ->
  (forall i, i < k ->
     retryable_failure (Http.timeout req) (respond env (fetch_count w + i) req)
     = Some (errs (fetch_count w + i))) ->
  respond env (fetch_count w + k) req = Http.Resolved r ->
  api_error r = Ok e ->
  isClientError e = true ->
  exists w0,
    call client fn body options env w = (Throw (TApi e), w0 ++ [Fetched req])
    /\ fetch_count (w0 ++ [Fetched req]) = fetch_count w + k + 1
    /\ (k = 0 -> w0 = w).
Proof.
  intros req Hk Hf Hr He Hc.
  rewrite call_unfold. fold req.
  replace (Z.to_nat (retry_budget options + 1))
    with (k + S (Z.to_nat (retry_budget options) - k)) by lia.
  destruct (call_loop_failures env req (retry_budget options) errs k
              (S (Z.to_nat (retry_budget options) - k)) 0%Z None w Hf)
    as (w' & Hcount & Hw & ->).
  exists w'. rewrite call_loop_round.
  rewrite (call_attempt_client_error env req _ _ w' r e); try assumption.
  - split; [reflexivity|]. split; [|exact Hw].
    rewrite fetch_count_app. simpl. lia.
  - rewrite Hcount. exact Hr.
Qed.

(** C1, as the code has it.  A 429 response is a client error for the
    guard of the retry loop: the call throws its typed error after the one
    request, with no pause and no second attempt, whatever the retry budget
    and whatever the Retry-After header says. *)
Theorem call_rate_limited_thrown_at_once
    (client : CynapsApiClient) (fn : string) (body : Obj)
    (options : option CallOptions.t) (env : Env) (w : list Event)
    (r : Http.Response) (e : CynapsApiError) :
  let req := call_request client fn body options in
  (0 < retry_budget options)%Z ->
  respond env (fetch_count w) req = Http.Resolved r ->
  Http.status r = 429%Z ->
  api_error r = Ok e ->
  call client fn body options env w = (Throw (TApi e), w ++ [Fetched req])
  /\ isRateLimited e = true.
Proof.
  intros req Hb Hr Hs He.
  assert (Hst := api_error_status r e He).
  assert (Hrl : isRateLimited e = true) by (unfold isRateLimited; lia).
  split; [|exact Hrl].
  rewrite call_unfold. fold req.
  replace (Z.to_nat (retry_budget options + 1))
    with (S (Z.to_nat (retry_budget options))) by lia.
  rewrite call_loop_round.
  rewrite (call_attempt_client_error env req _ _ w r e); auto using rate_limited_is_client_error.
Qed.

(** X27.  What [parseRetryAfter] computes: never more than sixty seconds,
    and five seconds when the response has no [Retry-After] header or one
    that does not start with a number. *)
Lemma parseRetryAfter_spec (r : Http.Response) :
  (parseRetryAfter r <= 60)%Z
  /\ (Http.headers_get r "Retry-After" = None -> parseRetryAfter r = 5%Z)
  /\ (forall h, Http.headers_get r "Retry-After" = Some h -> parseInt h = None ->
        parseRetryAfter r = 5%Z).
Proof.
  unfold parseRetryAfter. repeat split.
  - destruct (Http.headers_get r "Retry-After") as [h|]; [|lia].
    destruct (String.eqb h ""); [lia|]. destruct (parseInt h); lia.
  - intros ->. reflexivity.
  - intros h -> ->. destruct (String.eqb h ""); reflexivity.
Qed.

Lemma call_attempt_null_body (env : Env) (req : Http.Request) (maxRetries attempt : Z)
    (w : list Event) (r : Http.Response) :
  respond env (fetch_count w) req = Http.Resolved r ->
  Http.ok r = false ->
  Http.body r = Http.BodyJson VNull ->
  call_attempt req maxRetries attempt env w
  = (Ok (Failed NULL_BODY_ERROR), (w ++ [Fetched req]) ++ backoff maxRetries attempt).
Proof.
  intros Hr Hok Hbody.
  unfold call_attempt, try_catch, bind, fetch, lift, ret, throw, sleep, backoff.
  rewrite Hr, Hok. unfold api_error, error_body, Http.json. rewrite Hbody. simpl.
  destruct (attempt <? maxRetries)%Z; rewrite ?app_nil_r; reflexivity.
Qed.

Lemma call_loop_null_bodies (env : Env) (req : Http.Request) (maxRetries : Z) (k : nat) :
  forall (rounds : nat) (attempt : Z) (last : option CynapsApiError) (w : list Event),
    (forall i, i < k ->
       exists r, respond env (fetch_count w + i) req = Http.Resolved r
                 /\ Http.ok r = false /\ Http.body r = Http.BodyJson VNull) ->
    exists w',
      fetch_count w' = fetch_count w + k
      /\ call_loop req maxRetries (k + rounds) attempt last env w
         = call_loop req maxRetries rounds (attempt + Z.of_nat k)
             (match k with O => last | S _ => Some NULL_BODY_ERROR end) env w'.
Proof.
  induction k as [|k IH]; intros rounds attempt last w Hf.
  - exists w. split; [lia|]. simpl. by rewrite Z.add_0_r.
  - destruct (Hf 0 ltac:(lia)) as (r & Hr & Hok & Hbody). rewrite Nat.add_0_r in Hr.
    set (w1 := (w ++ [Fetched req]) ++ backoff maxRetries attempt).
    assert (Hw1 : fetch_count w1 = S (fetch_count w)).
    { unfold w1. rewrite !fetch_count_app, fetch_count_backoff. simpl. lia. }
    destruct (IH rounds (attempt + 1)%Z (Some NULL_BODY_ERROR) w1) as (w' & Hc & Hl).
    { intros i Hi. rewrite Hw1.
      replace (S (fetch_count w) + i) with (fetch_count w + S i) by lia.
      apply Hf. lia. }
    exists w'. split; [lia|].
    replace (S k + rounds) with (S (k + rounds)) by lia.
    rewrite call_loop_round, (call_attempt_null_body env req _ _ w r Hr Hok Hbody).
    fold w1. rewrite Hl.
    replace (attempt + 1 + Z.of_nat k)%Z with (attempt + Z.of_nat (S k))%Z by lia.
    by destruct k.
Qed.

(** C5.  A call whose every attempt is answered with a failure status, 500
    say, and the JSON body [null] is retried until the budget is spent, one
    plus the budget requests, and then throws a typed error that does not
    carry the status of the responses: its status is 0 and its code
    NETWORK_ERROR. *)
Theorem call_null_error_body (client : CynapsApiClient) (fn : string) (body : Obj)
    (options : option CallOptions.t) (env : Env) (w : list Event) :
  let req := call_request client fn body options in
  let budget := Z.to_nat (retry_budget options) in
  (0 <= retry_budget options)%Z ->
  (forall i, i < 1 + budget ->
     exists r, respond env (fetch_count w + i) req = Http.Resolved r
               /\ Http.ok r = false /\ Http.body r = Http.BodyJson VNull) ->
  exists w',
    call client fn body options env w = (Throw (TApi NULL_BODY_ERROR), w')
    /\ fetch_count w' = fetch_count w + (1 + budget)
    /\ status NULL_BODY_ERROR = 0%Z
    /\ code NULL_BODY_ERROR = VStr "NETWORK_ERROR"
    /\ (forall r, respond env (fetch_count w + budget) req = Http.Resolved r ->
          Http.status r = 500%Z -> status NULL_BODY_ERROR <> Http.status r).
Proof.
  intros req budget Hb Hf.
  rewrite call_unfold. fold req.
  replace (Z.to_nat (retry_budget options + 1)) with (S budget + 0) by (unfold budget; lia).
  destruct (call_loop_null_bodies env req (retry_budget options) (S budget) 0 0%Z None w Hf)
    as (w' & Hcount & ->).
  exists w'. simpl. split; [reflexivity|]. split; [lia|].
  split; [reflexivity|]. split; [reflexivity|].
  intros r _ Hstatus. rewrite Hstatus. discriminate.
Qed.

Lemma call_null_error_body_witness :
  exists w',
    call sample_client "agent-tools" [] None (scripted [] (json_response 500 VNull)) []
    = (Throw (TApi NULL_BODY_ERROR), w')
    /\ fetch_count w' = 3
    /\ status NULL_BODY_ERROR = 0%Z.
Proof.
  destruct (call_null_error_body sample_client "agent-tools" [] None
              (scripted [] (json_response 500 VNull)) [])
    as (w' & Hcall & Hcount & Hstatus & _).
  - vm_compute. discriminate.
  - intros i _. exists (json_response 500 VNull).
    split; [simpl; by destruct i as [|[|i]]|]. split; reflexivity.
  - exists w'. split; [exact Hcall|]. split; [exact Hcount|exact Hstatus].
Defined.



Lemma call_client_error_never_retried_witness :
  let bad := json_response 400
               (VObj [("error", VStr "Invalid input"); ("code", VStr "VALIDATION_ERROR")]) in
  call sample_client "agent-tools" [] None (scripted [] bad) []
  = (Throw (TApi (new "Invalid input" 400 (VStr "VALIDATION_ERROR") VUndef)),
     [Fetched (call_request sample_client "agent-tools" [] None)]).
Proof.
  intros bad.
  destruct (call_client_error_never_retried sample_client "agent-tools" [] None
              (scripted [] bad) [] (fun _ => new "" 0 VUndef VUndef) 0 bad
              (new "Invalid input" 400 (VStr "VALIDATION_ERROR") VUndef))
    as (w0 & Hcall & _ & Hw0).
  - vm_compute. discriminate.
  - intros i Hi. lia.
  - reflexivity.
  - reflexivity.
  - reflexivity.
  - rewrite Hcall, (Hw0 eq_refl). reflexivity.
Defined.

Lemma call_rate_limited_thrown_at_once_witness :
  parseRetryAfter rate_limited_response = 1%Z
  /\ call sample_client "agent-tools" [] None (scripted [] rate_limited_response) []
     = (Throw (TApi (new "Rate limit exceeded" 429 VUndef VUndef)),
        [Fetched (call_request sample_client "agent-tools" [] None)]).
Proof.
  split; [reflexivity|].
  apply (call_rate_limited_thrown_at_once sample_client "agent-tools" [] None
           (scripted [] rate_limited_response) [] rate_limited_response
           (new "Rate limit exceeded" 429 VUndef VUndef)).
  - vm_compute. reflexivity.
  - reflexivity.
  - reflexivity.
  - reflexivity.
Defined.

(** ** Empty bodies *)

(** C2, as the code has it.  [query] answers a success of status 204, or
    with a content length of zero, with the empty sequence and never parses
    the body.  [call] parses the body of every success: an empty one makes
    the parser throw, the fault is classified NETWORK_ERROR, the request is
    sent again, and with the default budget the call ends, after three
    requests, in a typed error of status 0. *)
Theorem empty_body_handling (client : CynapsApiClient) (env : Env) (w : list Event) :
  (forall table params options r,
     let req := query_request client table params options in
     respond env (fetch_count w) req = Http.Resolved r ->
     Http.ok r = true ->
     Http.status r = 204%Z \/ Http.headers_get r "content-length" = Some "0" ->
     query client table params options env w = (Ok (VArr []), w ++ [Fetched req]))
  /\ (forall fn body,
        let req := call_request client fn body None in
        (forall i, i < 3 ->
           exists r, respond env (fetch_count w + i) req = Http.Resolved r
                     /\ Http.ok r = true /\ Http.body r = Http.BodyEmpty) ->
        call client fn body None env w
        = (Throw (TApi (new "Unexpected end of JSON input" 0 (VStr "NETWORK_ERROR") VUndef)),
           w ++ [Fetched req; Slept 1000; Fetched req; Slept 2000; Fetched req])).
Proof.
  split.
  - intros table params options r req Hr Hok Hempty.
    unfold query, bind, fetch, ret. fold req. rewrite Hr, Hok. simpl.
    destruct Hempty as [-> | ->]; [reflexivity|].
    rewrite bool_decide_eq_true_2 by reflexivity. by rewrite orb_true_r.
  - intros fn body req Hall.
    assert (Hstep : forall attempt w0 i, i < 3 -> fetch_count w0 = fetch_count w + i ->
              call_attempt req 2 attempt env w0
              = (Ok (Failed (new "Unexpected end of JSON input" 0 (VStr "NETWORK_ERROR") VUndef)),
                 (w0 ++ [Fetched req]) ++ backoff 2 attempt)).
    { intros attempt w0 i Hi Hw0.
      destruct (Hall i Hi) as (r & Hr & Hok & Hb).
      rewrite (call_attempt_unparsed env req 2 attempt w0 r
                 (TError "Unexpected end of JSON input")).
      - reflexivity.
      - by rewrite Hw0.
      - exact Hok.
      - unfold Http.json. by rewrite Hb. }
    rewrite call_unfold. fold req.
    change (retry_budget None) with 2%Z. change (Z.to_nat (2 + 1)) with 3.
    rewrite call_loop_round, (Hstep 0%Z w 0) by lia.
    change (backoff 2 0) with [Slept 1000].
    rewrite call_loop_round, (Hstep (0 + 1)%Z _ 1)
      by (rewrite ?fetch_count_app; simpl; lia).
    change (backoff 2 (0 + 1)) with [Slept 2000].
    rewrite call_loop_round, (Hstep (0 + 1 + 1)%Z _ 2)
      by (rewrite ?fetch_count_app; simpl; lia).
    change (backoff 2 (0 + 1 + 1)) with (@nil Event).
    simpl. by rewrite <- !app_assoc.
Qed.

Lemma empty_body_handling_witness :
  let req := call_request sample_client "suno-generation-enqueue" [] None in
  query sample_client "sunoma_items" (Some [("id", "eq.trk-1")])
    (Some {| QueryOptions.method := Some "DELETE"; QueryOptions.body := None |})
    (scripted [] (empty_response 204)) []
  = (Ok (VArr []),
     [Fetched (query_request sample_client "sunoma_items" (Some [("id", "eq.trk-1")])
                 (Some {| QueryOptions.method := Some "DELETE"; QueryOptions.body := None |}))])
  /\ call sample_client "suno-generation-enqueue" [] None (scripted [] (empty_response 200)) []
     = (Throw (TApi (new "Unexpected end of JSON input" 0 (VStr "NETWORK_ERROR") VUndef)),
        [Fetched req; Slept 1000; Fetched req; Slept 2000; Fetched req]).
Proof.
  split.
  - destruct (empty_body_handling sample_client (scripted [] (empty_response 204)) [])
      as [Hquery _].
    apply (Hquery "sunoma_items" (Some [("id", "eq.trk-1")])
             (Some {| QueryOptions.method := Some "DELETE"; QueryOptions.body := None |})
             (empty_response 204)).
    + reflexivity.
    + reflexivity.
    + left. reflexivity.
  - destruct (empty_body_handling sample_client (scripted [] (empty_response 200)) [])
      as [_ Hcall].
    apply (Hcall "suno-generation-enqueue" []).
    intros i _. exists (empty_response 200).
    split; [|split; reflexivity].
    simpl. destruct i as [|[|i]]; reflexivity.
Defined.

(** ** The confirmation gate *)

Lemma isConfirmationResponse_iff (v : Val) :
  isConfirmationResponse v = true
  <-> exists o, v = VObj o /\ obj_get o "confirmation_required" = VBool true.
Proof.
  unfold isConfirmationResponse, opt_prop. split.
  - destruct v as [| |b|q|s|xs|o]; simpl; try discriminate.
    intros H. exists o. split; [reflexivity|].
    destruct (obj_get o "confirmation_required") as [| |[]| | | |]; try discriminate.
    reflexivity.
  - intros (o & -> & H). simpl. rewrite H. reflexivity.
Qed.

(** C4.  A value is detected as a confirmation response exactly when it is
    an object whose [confirmation_required] field is the boolean [true]:
    [false], the string, an absent field, [null] and values that are no
    objects are not detected.  Each mutating handler of the write group
    returns a detected envelope with all its fields and an [instruction]
    field that names the confirmation token, and returns any other payload
    of the backend as it came. *)
Theorem confirmation_gate :
  (forall v, isConfirmationResponse v = true
             <-> exists o, v = VObj o /\ obj_get o "confirmation_required" = VBool true)
  /\ (forall o, obj_get o "confirmation_required" = VBool false ->
        isConfirmationResponse (VObj o) = false)
  /\ (forall o, obj_get o "confirmation_required" = VStr "true" ->
        isConfirmationResponse (VObj o) = false)
  /\ (forall o, obj_get o "confirmation_required" = VUndef ->
        isConfirmationResponse (VObj o) = false)
  /\ isConfirmationResponse VNull = false
  /\ (forall v, (forall o, v <> VObj o) -> isConfirmationResponse v = false)
  /\ (forall stringify client tool params env w result w',
        tool ∈ write_tools ->
        rpc client (rpc_method tool) (pick params (allow_list tool)) None env w
        = (Ok result, w') ->
        (forall envelope,
           result = VObj envelope ->
           obj_get envelope "confirmation_required" = VBool true ->
           let augmented := obj_set envelope "instruction" (VStr (instruction tool)) in
           execute tool stringify client params env w
           = (Ok (jsonResult stringify (VObj augmented)), w')
           /\ obj_get augmented "instruction" = VStr (instruction tool)
           /\ includes "confirmation_token" (instruction tool) = true
           /\ (forall k, k <> "instruction" -> obj_get augmented k = obj_get envelope k))
        /\ (isConfirmationResponse result = false ->
            execute tool stringify client params env w
            = (Ok (jsonResult stringify result), w'))).
Proof.
  split; [exact isConfirmationResponse_iff|].
  repeat split.
  - intros o H. unfold isConfirmationResponse, opt_prop. simpl. by rewrite H.
  - intros o H. unfold isConfirmationResponse, opt_prop. simpl. by rewrite H.
  - intros o H. unfold isConfirmationResponse, opt_prop. simpl. by rewrite H.
  - intros v Hv. destruct (isConfirmationResponse v) eqn:E; [|reflexivity].
    apply isConfirmationResponse_iff in E as (o & -> & _). by destruct (Hv o).
  - subst result.
    assert (Hdet : isConfirmationResponse (VObj envelope) = true).
    { apply isConfirmationResponse_iff. eauto. }
    revert H0.
    repeat (apply elem_of_cons in H as [-> | H]); [| | | |by apply elem_of_nil in H];
      simpl; intros Hrpc;
      unfold musicmation_rate_tracks, musicmation_create_album,
        musicmation_set_dramaturgy, musicmation_bulk_rename, try_catch, bind;
      rewrite Hrpc, Hdet; reflexivity.
  - rewrite obj_get_set, String.eqb_refl. reflexivity.
  - repeat (apply elem_of_cons in H as [-> | H]); [| | | |by apply elem_of_nil in H];
      reflexivity.
  - intros k Hk. rewrite obj_get_set.
    destruct (String.eqb_spec "instruction" k); congruence.
  - intros Hnot. revert H0.
    repeat (apply elem_of_cons in H as [-> | H]); [| | | |by apply elem_of_nil in H];
      simpl; intros Hrpc;
      unfold musicmation_rate_tracks, musicmation_create_album,
        musicmation_set_dramaturgy, musicmation_bulk_rename, try_catch, bind;
      rewrite Hrpc, Hnot; reflexivity.
Qed.

Lemma confirmation_gate_witness :
  let params := [("ratings", VArr [VObj [("track_id", VStr "x"); ("rating", VNum 3)]]);
                 ("owner_id", VStr "someone-else")] in
  let env := scripted [] (json_response 200 (VObj CONFIRM_RESPONSE)) in
  exists w',
    musicmation_rate_tracks to_string sample_client params env []
    = (Ok (jsonResult to_string
             (VObj (CONFIRM_RESPONSE
                      ++ [("instruction",
                           VStr "Present this action to the user. Call again with the confirmation_token when approved.")]))),
       w')
    /\ fetch_count w' = 1.
Proof.
  intros params env.
  destruct confirmation_gate as (_ & _ & _ & _ & _ & _ & Hgate).
  destruct (Hgate to_string sample_client
              {| execute := musicmation_rate_tracks;
                 rpc_method := "rate-tracks";
                 allow_list := ["ratings"; "confirmation_token"];
                 instruction := "Present this action to the user. Call again with the confirmation_token when approved." |}
              params env [] (VObj CONFIRM_RESPONSE)
              [Fetched (call_request sample_client "agent-tools"
                          [("method", VStr "rate-tracks");
                           ("params", VObj [("ratings",
                              VArr [VObj [("track_id", VStr "x"); ("rating", VNum 3)]])])]
                          None)])
    as [Hdetected _].
  - apply list_elem_of_here.
  - reflexivity.
  - destruct (Hdetected CONFIRM_RESPONSE eq_refl eq_refl) as (Hrun & _).
    eexists. split; [exact Hrun|reflexivity].
Defined.

(** ** Compound and short-circuit handlers *)



Lemma fold_all_undefined (params : Obj) (keys : list string) (acc : Obj) :
  (forall k, k ∈ keys -> obj_get params k = VUndef) ->
  fold_left
    (fun body key => if is_undefined (obj_get params key) then body
                     else obj_set body key (obj_get params key)) keys acc
  = acc.
Proof.
  revert acc. induction keys as [|k keys IH]; intros acc H; simpl; [reflexivity|].
  rewrite (H k) by (by left). simpl. apply IH. intros k' Hk'. apply H. by right.
Qed.

(** C10.  When every updatable field of the parameters is absent (or
    [undefined]), the update tool returns the result [No fields to update.]
    and leaves the event log as it was: no request is sent. *)
Theorem update_item_without_fields
    (stringify : Val -> string) (client : CynapsApiClient) (params : Obj)
    (env : Env) (w : list Event) :
  (forall k, k ∈ updatableFields -> obj_get params k = VUndef) ->
  musicmation_update_item stringify client params env w
  = (Ok (jsonResult stringify (VObj [("message", VStr "No fields to update.")])), w).
Proof.
  intros H. unfold musicmation_update_item, try_catch.
  rewrite (fold_all_undefined params updatableFields [] H). reflexivity.
Qed.

Lemma update_item_without_fields_witness :
  let params := [("item_id", VStr "item_1700000000_0a1b2c3d"); ("title", VUndef);
                 ("owner_id", VStr "someone-else")] in
  musicmation_update_item to_string sample_client params
    (scripted [] (json_response 200 (VArr []))) []
  = (Ok (jsonResult to_string (VObj [("message", VStr "No fields to update.")])), []).
Proof.
  intros params.
  apply (update_item_without_fields to_string sample_client params).
  intros k Hk. unfold updatableFields in Hk.
  repeat (apply elem_of_cons in Hk as [-> | Hk]; [reflexivity|]).
  by apply elem_of_nil in Hk.
Defined.

(** * Further properties *)

(** ** The retry loop of [call] *)

Lemma call_attempt_throws_typed (env : Env) (req : Http.Request) (maxRetries attempt : Z)
    (w w' : list Event) (t : Thrown) :
  call_attempt req maxRetries attempt env w = (Throw t, w') -> exists e, t = TApi e.
Proof.
  unfold call_attempt, try_catch, bind, fetch, lift, ret, throw, sleep.
  destruct (respond env (fetch_count w) req) as [r|[e|msg|v]].
  - destruct (Http.ok r).
    + destruct (Http.json r) as [v|[e|msg|v]]; intros H; inversion H; eauto;
        destruct (attempt <? maxRetries)%Z; discriminate.
    + destruct (api_error r) as [e|[e'|msg|v]].
      * destruct (isClientError e); [intros H; inversion H; eauto|].
        destruct (attempt <? maxRetries)%Z; discriminate.
      * intros H; inversion H; eauto.
      * destruct (attempt <? maxRetries)%Z; discriminate.
      * destruct (attempt <? maxRetries)%Z; discriminate.
  - intros H; inversion H; eauto.
  - destruct (attempt <? maxRetries)%Z; discriminate.
  - destruct (attempt <? maxRetries)%Z; discriminate.
Qed.

Lemma call_loop_throws_typed (env : Env) (req : Http.Request) (maxRetries : Z) (rounds : nat) :
  forall attempt last w w' t,
    call_loop req maxRetries rounds attempt last env w = (Throw t, w') ->
    exists e, t = TApi e.
Proof.
  induction rounds as [|rounds IH]; intros attempt last w w' t.
  - simpl. unfold throw. intros H; inversion H; eauto.
  - rewrite call_loop_round.
    destruct (call_attempt req maxRetries attempt env w) as [[[v|e]|t0] w0] eqn:E.
    + discriminate.
    + apply IH.
    + intros H; inversion H; subst. by eapply call_attempt_throws_typed.
Qed.

(** X1.  Whatever [call] throws is a typed error: faults of the transport,
    bodies that do not parse and thrown values of any kind are classified
    before they leave the retry loop. *)
Theorem call_throws_typed (client : CynapsApiClient) (fn : string) (body : Obj)
    (options : option CallOptions.t) (env : Env) (w w' : list Event) (t : Thrown) :
  call client fn body options env w = (Throw t, w') -> exists e, t = TApi e.
Proof. rewrite call_unfold. apply call_loop_throws_typed. Qed.

Lemma call_throws_typed_witness :
  exists e, TApi (new "fetch failed" 0 (VStr "NETWORK_ERROR") VUndef) = TApi e.
Proof.
  apply (call_throws_typed sample_client "agent-tools" [] None
           (unreachable (TError "fetch failed")) []
           [Fetched (call_request sample_client "agent-tools" [] None); Slept 1000;
            Fetched (call_request sample_client "agent-tools" [] None); Slept 2000;
            Fetched (call_request sample_client "agent-tools" [] None)]).
  reflexivity.
Defined.

Lemma call_attempt_events (env : Env) (req : Http.Request) (maxRetries attempt : Z)
    (w : list Event) :
  exists evs,
    snd (call_attempt req maxRetries attempt env w) = w ++ Fetched req :: evs
    /\ (evs = [] \/ ((attempt <? maxRetries)%Z = true
                     /\ evs = [Slept (RETRY_DELAY_MS * 2 ^ attempt)])).
Proof.
  unfold call_attempt, try_catch, bind, fetch, lift, ret, throw, sleep.
  destruct (attempt <? maxRetries)%Z eqn:E;
    (destruct (respond env (fetch_count w) req) as [r|[e|msg|v]];
     [ destruct (Http.ok r);
       [ destruct (Http.json r) as [v|[e|msg|v]]
       | destruct (api_error r) as [e|[e'|msg|v]];
         [ destruct (isClientError e) eqn:Hc;
           [|assert (Hrl : isRateLimited e = false)
               by (destruct (isRateLimited e) eqn:Hrl; [|reflexivity];
                   apply rate_limited_is_client_error in Hrl; congruence);
             rewrite ?Hrl]
         | | | ] ]
     | | | ]);
    simpl;
    first [ exists []; split; [reflexivity | left; reflexivity]
          | eexists; split; [rewrite <- app_assoc; reflexivity | right; split; reflexivity] ].
Qed.

Lemma call_loop_events (env : Env) (req : Http.Request) (maxRetries : Z) (rounds : nat) :
  forall attempt last w,
    (0 <= attempt)%Z ->
    exists evs,
      snd (call_loop req maxRetries rounds attempt last env w) = w ++ evs
      /\ Forall (call_event req maxRetries) evs
      /\ fetch_count evs <= rounds.
Proof.
  induction rounds as [|rounds IH]; intros attempt last w Ha.
  - exists []. simpl. rewrite app_nil_r. repeat split; [constructor|lia].
  - rewrite call_loop_round.
    destruct (call_attempt_events env req maxRetries attempt w) as (evs0 & Hw & Hevs0).
    assert (Hall : Forall (call_event req maxRetries) (Fetched req :: evs0)).
    { constructor; [by left|].
      destruct Hevs0 as [-> | [Hlt ->]]; [constructor|].
      constructor; [|constructor]. right. exists attempt. split; [lia|reflexivity]. }
    assert (Hcount : fetch_count (Fetched req :: evs0) = 1).
    { destruct Hevs0 as [-> | [_ ->]]; reflexivity. }
    destruct (call_attempt req maxRetries attempt env w) as [[[v|e]|t] w0]; simpl in Hw; subst w0.
    + exists (Fetched req :: evs0). repeat split; [exact Hall|lia].
    + destruct (IH (attempt + 1)%Z (Some e) (w ++ Fetched req :: evs0)) as (evs & -> & Hevs & Hn);
        [lia|].
      exists ((Fetched req :: evs0) ++ evs). rewrite <- app_assoc.
      repeat split; [by apply Forall_app|].
      rewrite fetch_count_app. lia.
    + exists (Fetched req :: evs0). repeat split; [exact Hall|lia].
Qed.

(** X2.  Whatever the backend does, [call] adds to the log nothing but its
    own request, at most one plus the budget times, and pauses of the
    exponential schedule: it never sends another request and never sleeps
    for the Retry-After interval. *)
Theorem call_sends_only_its_request (client : CynapsApiClient) (fn : string) (body : Obj)
    (options : option CallOptions.t) (env : Env) (w : list Event) :
  exists evs,
    snd (call client fn body options env w) = w ++ evs
    /\ Forall (call_event (call_request client fn body options) (retry_budget options)) evs
    /\ fetch_count evs <= Z.to_nat (retry_budget options + 1).
Proof. rewrite call_unfold. apply call_loop_events. lia. Qed.

(** X3.  After any number of retryable failures within the budget, the
    first success with a JSON body ends the call: its body is returned and
    nothing is sent after it. *)
Theorem call_succeeds_after_failures
    (client : CynapsApiClient) (fn : string) (body : Obj)
    (options : option CallOptions.t) (env : Env) (w : list Event)
    (errs : nat -> CynapsApiError) (k : nat) (r : Http.Response) (v : Val) :
  let req := call_request client fn body options in
  (Z.of_nat k <= retry_budget options)%Z ->
  (forall i, i < k ->
     retryable_failure (Http.timeout req) (respond env (fetch_count w + i) req)
     = Some (errs (fetch_count w + i))) ->
  respond env (fetch_count w + k) req = Http.Resolved r ->
  Http.ok r = true ->
  Http.json r = Ok v ->
  exists w0,
    call client fn body options env w = (Ok v, w0 ++ [Fetched req])
    /\ fetch_count (w0 ++ [Fetched req]) = fetch_count w + k + 1.
Proof.
  intros req Hk Hf Hr Hok Hj.
  rewrite call_unfold. fold req.
  replace (Z.to_nat (retry_budget options + 1))
    with (k + S (Z.to_nat (retry_budget options) - k)) by lia.
  destruct (call_loop_failures env req (retry_budget options) errs k
              (S (Z.to_nat (retry_budget options) - k)) 0%Z None w Hf)
    as (w' & Hcount & _ & ->).
  exists w'. rewrite call_loop_round.
  rewrite (call_attempt_returns env req _ _ w' r v); try assumption.
  - split; [reflexivity|]. rewrite fetch_count_app. simpl. lia.
  - rewrite Hcount. exact Hr.
Qed.

Lemma call_succeeds_after_failures_witness :
  let down := json_response 503 (VObj [("error", VStr "Unavailable")]) in
  let up := json_response 200 (VObj [("tracks", VArr [])]) in
  exists w0,
    call sample_client "agent-tools" [] None (scripted [down] up) []
    = (Ok (VObj [("tracks", VArr [])]),
       w0 ++ [Fetched (call_request sample_client "agent-tools" [] None)])
    /\ fetch_count (w0 ++ [Fetched (call_request sample_client "agent-tools" [] None)]) = 2.
Proof.
  intros down up.
  apply (call_succeeds_after_failures sample_client "agent-tools" [] None
           (scripted [down] up) [] (fun _ => new "Unavailable" 503 VUndef VUndef) 1 up
           (VObj [("tracks", VArr [])])).
  - vm_compute. discriminate.
  - intros i Hi. assert (i = 0) as -> by lia. reflexivity.
  - reflexivity.
  - reflexivity.
  - reflexivity.
Defined.

Lemma slept_total_app (w1 w2 : list Event) :
  slept_total (w1 ++ w2) = (slept_total w1 + slept_total w2)%Z.
Proof.
  induction w1 as [|[req|ms] w1 IH]; simpl; [reflexivity| |]; rewrite IH; lia.
Qed.

Lemma slept_failed_rounds (req : Http.Request) (maxRetries : Z) (n : nat) :
  forall attempt,
    (0 <= attempt)%Z ->
    (attempt + Z.of_nat n = maxRetries)%Z ->
    slept_total (failed_rounds req maxRetries (S n) attempt)
    = (RETRY_DELAY_MS * (2 ^ maxRetries - 2 ^ attempt))%Z.
Proof.
  induction n as [|n IH]; intros attempt Ha Hn.
  - assert (attempt = maxRetries) as -> by lia.
    simpl. unfold backoff. rewrite Z.ltb_irrefl. simpl. lia.
  - change (failed_rounds req maxRetries (S (S n)) attempt)
      with (Fetched req :: backoff maxRetries attempt
              ++ failed_rounds req maxRetries (S n) (attempt + 1)).
    cbn [slept_total]. rewrite slept_total_app, IH by lia.
    unfold backoff. replace (attempt <? maxRetries)%Z with true by lia.
    cbn [slept_total]. rewrite Z.pow_add_r by lia. change (2 ^ 1)%Z with 2%Z. lia.
Qed.

Lemma call_loop_all_fail (env : Env) (req : Http.Request) (maxRetries : Z)
    (errs : nat -> CynapsApiError) (rounds : nat) :
  forall (attempt : Z) (last : option CynapsApiError) (w : list Event),
    (forall i, i < rounds ->
       retryable_failure (Http.timeout req) (respond env (fetch_count w + i) req)
       = Some (errs (fetch_count w + i))) ->
    call_loop req maxRetries rounds attempt last env w
    = (Throw (TApi (default (new "Request failed after retries" 500 VUndef VUndef)
                      (match rounds with
                       | O => last
                       | S k => Some (errs (fetch_count w + k))
                       end))),
       w ++ failed_rounds req maxRetries rounds attempt).
Proof.
  induction rounds as [|rounds IH]; intros attempt last w Hf.
  - simpl. by rewrite app_nil_r.
  - assert (H0 := Hf 0 ltac:(lia)). rewrite Nat.add_0_r in H0.
    rewrite call_loop_round, (call_attempt_retryable _ _ _ _ _ _ H0).
    set (w1 := (w ++ [Fetched req]) ++ backoff maxRetries attempt).
    assert (Hw1 : fetch_count w1 = S (fetch_count w)).
    { unfold w1. rewrite !fetch_count_app, fetch_count_backoff. simpl. lia. }
    rewrite IH.
    + f_equal.
      * destruct rounds as [|k]; [by rewrite Nat.add_0_r|].
        rewrite Hw1. by replace (S (fetch_count w) + k) with (fetch_count w + S k) by lia.
      * unfold w1. simpl. by rewrite <- !app_assoc.
    + intros i Hi. rewrite Hw1.
      replace (S (fetch_count w) + i) with (fetch_count w + S i) by lia.
      apply Hf. lia.
Qed.

(** X4.  A call that meets a retryable failure at every attempt pauses
    after each attempt but the last for one second times two to the power
    of the attempt: in all, one second times (2 ^ budget - 1), three
    seconds with the default budget. *)
Theorem call_backoff_total
    (client : CynapsApiClient) (fn : string) (body : Obj)
    (options : option CallOptions.t) (env : Env) (w : list Event)
    (errs : nat -> CynapsApiError) :
  let req := call_request client fn body options in
  let budget := retry_budget options in
  (0 <= budget)%Z ->
  (forall i, i < S (Z.to_nat budget) ->
     retryable_failure (Http.timeout req) (respond env (fetch_count w + i) req)
     = Some (errs (fetch_count w + i))) ->
  snd (call client fn body options env w)
  = w ++ failed_rounds req budget (S (Z.to_nat budget)) 0
  /\ slept_total (snd (call client fn body options env w))
     = (slept_total w + RETRY_DELAY_MS * (2 ^ budget - 1))%Z.
Proof.
  intros req budget Hb Hf.
  rewrite call_unfold. fold req. fold budget.
  replace (Z.to_nat (budget + 1)) with (S (Z.to_nat budget)) by lia.
  rewrite (call_loop_all_fail env req budget errs _ 0%Z None w Hf).
  split; [reflexivity|].
  cbn [snd]. rewrite slept_total_app, slept_failed_rounds by lia.
  reflexivity.
Qed.

Lemma call_backoff_total_witness :
  slept_total
    (snd (call sample_client "agent-tools" [] None (unreachable (TError "fetch failed")) []))
  = 3000%Z.
Proof.
  destruct (call_backoff_total sample_client "agent-tools" [] None
              (unreachable (TError "fetch failed")) []
              (fun _ => new "fetch failed" 0 (VStr "NETWORK_ERROR") VUndef))
    as [_ Htotal].
  - vm_compute. discriminate.
  - intros i _. reflexivity.
  - rewrite Htotal. reflexivity.
Defined.

(** ** [query] *)


(** ** The client's base URL and identity *)

Lemma strip_trailing_slash_app (s : string) : strip_trailing_slash (s +:+ "/") = s.
Proof.
  induction s as [|a s IH]; [reflexivity|].
  change (String a s +:+ "/") with (String a (s +:+ "/")).
  cbn [strip_trailing_slash]. rewrite IH.
  destruct s; reflexivity.
Qed.

Lemma strip_trailing_slash_id (s : string) :
  ends_with_slash s = false -> strip_trailing_slash s = s.
Proof.
  induction s as [|a s IH]; [reflexivity|].
  destruct s as [|b s].
  - simpl. intros ->. reflexivity.
  - intros H. change (strip_trailing_slash (String a (String b s)))
      with (String a (strip_trailing_slash (String b s))).
    rewrite IH; [reflexivity|exact H].
Qed.

(** X6.  The client drops one trailing slash of the configured URL and
    nothing else: the same endpoint written with or without the slash
    gives the same request URL, and only the last of two slashes goes. *)
Theorem new_client_base_url (config : Config.CynapsConfig) (fn : string) (body : Obj) :
  (forall s, Config.supabaseUrl config = s +:+ "/" -> baseUrl (new_client config) = s)
  /\ (ends_with_slash (Config.supabaseUrl config) = false ->
      baseUrl (new_client config) = Config.supabaseUrl config)
  /\ (forall s, Config.supabaseUrl config = s +:+ "/" ->
        Http.url (call_request (new_client config) fn body None)
        = s +:+ "/functions/v1/" +:+ fn).
Proof.
  repeat split.
  - intros s Hs. simpl. rewrite Hs. apply strip_trailing_slash_app.
  - intros H. simpl. by apply strip_trailing_slash_id.
  - intros s Hs. simpl. rewrite Hs, strip_trailing_slash_app. reflexivity.
Qed.

Lemma new_client_base_url_witness :
  baseUrl (new_client {| Config.supabaseUrl := "https://test.supabase.co/";
                         Config.supabaseAnonKey := "anon";
                         Config.serviceRoleKey := "service";
                         Config.userId := "user-1";
                         Config.agentId := None |})
  = "https://test.supabase.co".
Proof.
  destruct (new_client_base_url
              {| Config.supabaseUrl := "https://test.supabase.co/";
                 Config.supabaseAnonKey := "anon";
                 Config.serviceRoleKey := "service";
                 Config.userId := "user-1";
                 Config.agentId := None |} "agent-tools" []) as [H _].
  apply H. reflexivity.
Defined.

(** X7.  The agent identity sent with a request is the first that is
    present and not empty among: the identity of the tool context, the one
    of the configuration, [OPENCLAW_AGENT_ID] and [CYNAPS3_AGENT_ID]; with
    none of them, no identity header is sent. *)
Theorem agent_identity_priority (config : Config.CynapsConfig) (ctx : option Context.t)
    (penv : ProcessEnv.t) (uuid : string) :
  header_value (buildHeaders (fromContext config ctx) penv uuid) "X-Agent-Id"
  = first_present [ ctx ≫= Context.agentId;
                    Config.agentId config;
                    ProcessEnv.OPENCLAW_AGENT_ID penv;
                    ProcessEnv.CYNAPS3_AGENT_ID penv ].
Proof.
  unfold buildHeaders, fromContext, first_nonempty, nonempty, header_value.
  destruct config as [url anon service user b], penv as [e1 e2 e3 e4 e5 c d].
  destruct ctx as [[[[|? a]|]]|], b as [[|? b]|], c as [[|? c]|], d as [[|? d]|];
    reflexivity.
Qed.

(** ** The error classifier, further *)

(** X8.  The classes of a typed error depend on its status alone: client
    and server errors exclude each other, an authentication or rate limit
    error is always a client error, and a status below 400 (0 for a fault
    of the transport) is in no class. *)
Theorem error_classes (e : CynapsApiError) :
  (isClientError e = true <-> (400 <= status e < 500)%Z)
  /\ (isServerError e = true <-> (500 <= status e)%Z)
  /\ isClientError e && isServerError e = false
  /\ (isAuthError e = true -> isClientError e = true)
  /\ (isRateLimited e = true -> isClientError e = true)
  /\ isAuthError e && isRateLimited e = false
  /\ ((status e < 400)%Z ->
      isClientError e = false /\ isServerError e = false
      /\ isAuthError e = false /\ isRateLimited e = false).
Proof.
  unfold isClientError, isServerError, isAuthError, isRateLimited.
  repeat split; lia.
Qed.

(** X9.  What a user is shown after a failure: for a thrown value that is
    no typed error, once wrapped, the generic server sentence and never its
    own message; for a fault of the transport classified by [call], its
    message as it is, a timeout being reworded with the time limit. *)
Theorem failure_display :
  (forall msg, userMessage (wrapError (TError msg)) = SERVER_MESSAGE)
  /\ (forall v, userMessage (wrapError (TOther v)) = SERVER_MESSAGE)
  /\ (forall timeout fault,
        userMessage (network_error timeout fault) = message (network_error timeout fault)
        /\ status (network_error timeout fault) = 0%Z
        /\ code (network_error timeout fault) = VStr "NETWORK_ERROR")
  /\ (forall timeout msg,
        includes "timeout" msg = true ->
        message (network_error timeout (TError msg))
        = "Request timed out after " +:+ pretty timeout +:+ "ms")
  /\ (forall timeout msg,
        includes "timeout" msg = false ->
        message (network_error timeout (TError msg)) = msg).
Proof.
  repeat split.
  - intros timeout msg H. simpl. by rewrite H.
  - intros timeout msg H. simpl. by rewrite H.
Qed.

(** ** [pick], further *)

Lemma pick_from_ext (obj obj' : Obj) (keys : list string) (acc : Obj) :
  (forall k, k ∈ keys -> obj_get obj k = obj_get obj' k) ->
  fold_left (pick_step obj) keys acc = fold_left (pick_step obj') keys acc.
Proof.
  revert acc. induction keys as [|k keys IH]; intros acc H; simpl; [reflexivity|].
  unfold pick_step at 2 4. rewrite (H k) by (by left).
  apply IH. intros k' Hk'. apply H. by right.
Qed.

Lemma pick_get_allowed (obj : Obj) (keys : list string) (k : string) :
  k ∈ keys -> obj_get (pick obj keys) k = obj_get obj k.
Proof.
  intros Hk. unfold pick. rewrite pick_from_get.
  rewrite bool_decide_eq_true_2 by exact Hk. simpl.
  destruct (obj_get obj k); reflexivity.
Qed.

Lemma pick_keys (obj : Obj) (keys : list string) (k : string) :
  k ∈ obj_keys (pick obj keys) <-> k ∈ keys /\ obj_get obj k <> VUndef.
Proof.
  unfold pick. rewrite pick_from_keys. simpl. rewrite elem_of_nil. tauto.
Qed.



(** X11.  For allow-lists that name no property of [Object.prototype]:
    sanitizing twice with the same allow-list changes nothing, and
    sanitizing with two allow-lists in turn leaves exactly the keys of
    defined value that are in both. *)
Theorem pick_idempotent (obj : Obj) (keys keys' : list string) :
  Forall (fun k => k ∉ Proto.MEMBERS) keys ->
  Forall (fun k => k ∉ Proto.MEMBERS) keys' ->
  exists once twice,
    Proto.pick obj keys = Some (Proto.plain once)
    /\ Proto.pick once keys = Some (Proto.plain once)
    /\ Proto.pick once keys' = Some (Proto.plain twice)
    /\ key_set twice = list_to_set keys ∩ list_to_set keys' ∩ defined_keys obj.
Proof.
  intros Hkeys Hkeys'.
  exists (pick obj keys), (pick (pick obj keys) keys').
  split; [by apply pick_plain|].
  split.
  - rewrite (pick_plain _ _ Hkeys). do 2 f_equal.
    unfold pick at 1 3. apply pick_from_ext. intros k Hk. by apply pick_get_allowed.
  - split; [by apply pick_plain|].
    apply set_eq. intros k. unfold key_set.
    rewrite elem_of_list_to_set, pick_keys, !elem_of_intersection,
      !elem_of_list_to_set, elem_of_defined_keys.
    split.
    + intros [Hk' Hdef].
      assert (Hin : k ∈ obj_keys (pick obj keys)) by (by apply obj_get_defined_key).
      apply pick_keys in Hin as [Hk Hd]. tauto.
    + intros [[Hk Hk'] Hdef]. split; [exact Hk'|].
      by rewrite pick_get_allowed.
Qed.

Lemma pick_idempotent_witness :
  let obj := [("mood", VStr "calm"); ("genre", VNull); ("evil", VNum 1); ("gone", VUndef)] in
  exists once twice,
    Proto.pick obj ["mood"; "genre"; "gone"] = Some (Proto.plain once)
    /\ Proto.pick once ["mood"; "genre"; "gone"] = Some (Proto.plain once)
    /\ Proto.pick once ["genre"; "evil"] = Some (Proto.plain twice)
    /\ key_set twice
       = list_to_set ["mood"; "genre"; "gone"] ∩ list_to_set ["genre"; "evil"]
         ∩ defined_keys obj.
Proof.
  intros obj.
  apply (pick_idempotent obj ["mood"; "genre"; "gone"] ["genre"; "evil"]);
    repeat constructor; intros Hin;
    repeat (apply elem_of_cons in Hin as [Hin|Hin]; [discriminate|]);
    by apply elem_of_nil in Hin.
Defined.

(** ** What the handlers send and throw *)

Lemma rpc_events (client : CynapsApiClient) (method : string) (params : Obj)
    (env : Env) (w : list Event) :
  exists evs,
    snd (rpc client method params None env w) = w ++ evs
    /\ Forall (fun ev => forall req, ev = Fetched req ->
                 req = call_request client "agent-tools"
                         [("method", VStr method); ("params", VObj params)] None) evs.
Proof.
  unfold rpc. rewrite call_unfold.
  destruct (call_loop_events env
              (call_request client "agent-tools"
                 [("method", VStr method); ("params", VObj params)] None)
              (retry_budget None) (Z.to_nat (retry_budget None + 1)) 0%Z None w)
    as (evs & Hw & Hall & _); [lia|].
  exists evs. split; [exact Hw|].
  eapply Forall_impl; [exact Hall|].
  intros ev [-> | (a & _ & ->)] req Hreq; inversion Hreq. reflexivity.
Qed.

Lemma snd_try_catch_bind {A B : Type} (m : M A) (k : A -> M B) (h : Thrown -> M B)
    (env : Env) (w : list Event) :
  (forall a w0, snd (k a env w0) = w0) ->
  (forall t w0, snd (h t env w0) = w0) ->
  snd (try_catch (bind m k) h env w) = snd (m env w).
Proof.
  intros Hk Hh. unfold try_catch, bind.
  destruct (m env w) as [[a|t] w0]; simpl.
  - specialize (Hk a w0). destruct (k a env w0) as [[b|t] w1]; simpl in *.
    + exact Hk.
    + subst w1. apply Hh.
  - apply Hh.
Qed.

Lemma pick_sanitized (client : CynapsApiClient) (method : string) (allowed : list string)
    (params : Obj) :
  sanitized_request client method allowed params
    (call_request client "agent-tools"
       [("method", VStr method); ("params", VObj (pick params allowed))] None).
Proof.
  split; [reflexivity|]. exists (pick params allowed). split; [reflexivity|].
  intros k Hk. unfold pick in Hk. apply pick_from_keys in Hk as [Hk|[Hk _]].
  - by apply elem_of_nil in Hk.
  - split; [exact Hk|]. by apply pick_get_allowed.
Qed.

(** X12.  Each tool that forwards its parameters to a remote method sends
    nothing but requests to the RPC endpoint whose parameters are
    allow-listed fields with the values the caller gave: a field outside
    the allow-list of the tool never reaches the network, whatever its name
    or value and however often the request is retried. *)
Theorem forwarded_params_sanitized :
  Forall
    (fun tool =>
       forall stringify client params env w,
       exists evs,
         snd (run tool stringify client params env w) = w ++ evs
         /\ Forall (fun ev => forall req, ev = Fetched req ->
                      sanitized_request client (remote tool) (allowed tool) params req)
              evs)
    forwarding_tools.
Proof.
  assert (Hgen : forall (stringify : Val -> string) client method allowed params
                        (k : Val -> M AgentToolResult) env w,
            (forall a w0, snd (k a env w0) = w0) ->
            exists evs,
              snd (try_catch (bind (rpc client method (pick params allowed) None) k)
                     (fun err => throw (TApi (wrapError err))) env w) = w ++ evs
              /\ Forall (fun ev => forall req, ev = Fetched req ->
                           sanitized_request client method allowed params req) evs).
  { intros stringify client method allowed params k env w Hk.
    rewrite snd_try_catch_bind; [|exact Hk|reflexivity].
    destruct (rpc_events client method (pick params allowed) env w) as (evs & Hw & Hall).
    exists evs. split; [exact Hw|].
    eapply Forall_impl; [exact Hall|].
    intros ev Hev req Hreq. rewrite (Hev req Hreq). apply pick_sanitized. }
  unfold forwarding_tools.
  repeat constructor; simpl; intros stringify client params env w;
    apply (Hgen stringify); intros a w0;
    try destruct (isConfirmationResponse a); reflexivity.
Qed.

Lemma try_catch_wrap_typed {A : Type} (m : M A) (env : Env) (w w' : list Event) (t : Thrown) :
  try_catch m (fun err => throw (TApi (wrapError err))) env w = (Throw t, w') ->
  exists e, t = TApi e.
Proof.
  unfold try_catch, throw. destruct (m env w) as [[a|t0] w0]; intros H; inversion H; eauto.
Qed.

(** X13.  A handler whose body stands in the wrapping try/catch fails with
    a typed error and nothing else, whatever is thrown inside it. *)
Theorem wrapped_handlers_throw_typed (stringify : Val -> string) (client : CynapsApiClient)
    (contentDomain : string) :
  Forall
    (fun handler =>
       forall params env w t w',
         handler params env w = (Throw t, w') -> exists e, t = TApi e)
    (wrapped_handlers stringify client contentDomain).
Proof.
  unfold wrapped_handlers.
  repeat constructor; intros params env w t w'; apply try_catch_wrap_typed.
Qed.

(** ** The compound and guarded handlers *)

Lemma query_log (client : CynapsApiClient) (table : string)
    (params : option (list (string * string))) (options : option QueryOptions.t)
    (env : Env) (w : list Event) :
  snd (query client table params options env w)
  = w ++ [Fetched (query_request client table params options)].
Proof.
  unfold query, bind, fetch, lift, ret, throw.
  destruct (respond env (fetch_count w) (query_request client table params options)) as [r|t];
    [|reflexivity].
  destruct (Http.ok r); simpl.
  - destruct ((Http.status r =? 204)%Z
              || bool_decide (Http.headers_get r "content-length" = Some "0"));
      [reflexivity|]. by destruct (Http.json r).
  - by destruct (error_message r (error_body r)).
Qed.

(** X14.  The generate tool sends the enqueue request only after the
    creation step returned an identifier.  When the creation step throws,
    the handler throws the same value, not wrapped, so a fault of the
    transport leaves it untyped; when it returns no identifier the handler
    throws CREATE_FAILED.  In both cases the creation request is the only
    one sent. *)
Theorem generate_creation_step (stringify : Val -> string) (client : CynapsApiClient)
    (params : Obj) (env : Env) (w : list Event) :
  let created := query client "sunoma_items" None (create_track_options params env) env w in
  snd created
  = w ++ [Fetched (query_request client "sunoma_items" None (create_track_options params env))]
  /\ (forall fault, fst created = Throw fault ->
        musicmation_generate stringify client params env w = (Throw fault, snd created))
  /\ (forall items, fst created = Ok items ->
        truthy (opt_prop (opt_first items) "id") = false ->
        musicmation_generate stringify client params env w
        = (Throw (TApi CREATE_TRACK_FAILED), snd created)).
Proof.
  intros created. split; [apply query_log|].
  assert (Hcreated : created
            = query client "sunoma_items" None (create_track_options params env) env w)
    by reflexivity.
  clearbody created.
  unfold create_track_options, generated_track_id in Hcreated.
  split.
  - intros fault Hf. unfold musicmation_generate.
    unfold bind at 1. unfold Date_now at 1.
    unfold bind at 1. unfold getRandomValues at 1.
    unfold bind at 1. rewrite <- Hcreated.
    destruct created as [[items|t] w1]; simpl in Hf; inversion Hf. reflexivity.
  - intros items Hi Hid. unfold musicmation_generate.
    unfold bind at 1. unfold Date_now at 1.
    unfold bind at 1. unfold getRandomValues at 1.
    unfold bind at 1. rewrite <- Hcreated.
    destruct created as [[items'|t] w1]; simpl in Hi; inversion Hi; subst items'.
    cbv beta iota zeta. rewrite Hid. reflexivity.
Qed.

Lemma generate_creation_step_witness :
  musicmation_generate to_string sample_client [("title", VStr "Offline")]
    (unreachable (TError "fetch failed")) []
  = (Throw (TError "fetch failed"),
     [Fetched (query_request sample_client "sunoma_items" None
                 (create_track_options [("title", VStr "Offline")]
                    (unreachable (TError "fetch failed"))))]).
Proof.
  destruct (generate_creation_step to_string sample_client [("title", VStr "Offline")]
              (unreachable (TError "fetch failed")) []) as (_ & Hfault & _).
  apply (Hfault (TError "fetch failed")). reflexivity.
Defined.




(** X16.  The bulk generate tool sends nothing when [track_ids] has no
    length to speak of (an empty array), and, unlike the single generate
    tool, reports a failed enqueue by throwing the typed error: there is no
    partial result. *)
Theorem bulk_generate_spec (stringify : Val -> string) (client : CynapsApiClient)
    (params : Obj) (env : Env) (w : list Event) :
  (forall count,
     get_prop (obj_get params "track_ids") "length" = Ok count ->
     truthy count = false ->
     musicmation_bulk_generate stringify client params env w
     = (Ok (jsonResult stringify
              (VObj [("error", VStr "track_ids array is empty"); ("enqueued", VNum 0)])), w))
  /\ (is_nullish (obj_get params "track_ids") = true ->
      exists e, musicmation_bulk_generate stringify client params env w = (Throw (TApi e), w)
                /\ status e = 500%Z /\ code e = VStr "PLUGIN_ERROR")
  /\ (forall count fault w1,
        get_prop (obj_get params "track_ids") "length" = Ok count ->
        truthy count = true ->
        call client (enqueue_endpoint params)
          (bulk_enqueue_body params (obj_get params "track_ids")
             (is_string (or_else (obj_get params "provider") (VStr "suno")) "sonauto"))
          None env w = (Throw fault, w1) ->
        musicmation_bulk_generate stringify client params env w
        = (Throw (TApi (wrapError fault)), w1)).
Proof.
  unfold musicmation_bulk_generate, enqueue_endpoint, try_catch, bind, lift, ret, throw.
  repeat split.
  - intros count Hc Ht. rewrite Hc, Ht. reflexivity.
  - intros Hn. destruct (obj_get params "track_ids"); try discriminate; simpl;
      eexists; repeat split.
  - intros count fault w1 Hc Ht Hcall. rewrite Hc, Ht. simpl. rewrite Hcall. reflexivity.
Qed.

Lemma bulk_generate_spec_witness :
  musicmation_bulk_generate to_string sample_client [("track_ids", VArr [])]
    (unreachable (TError "fetch failed")) []
  = (Ok (jsonResult to_string
           (VObj [("error", VStr "track_ids array is empty"); ("enqueued", VNum 0)])), []).
Proof.
  destruct (bulk_generate_spec to_string sample_client [("track_ids", VArr [])]
              (unreachable (TError "fetch failed")) []) as (Hempty & _).
  apply (Hempty (VNum 0)); reflexivity.
Defined.

(** ** Polling *)


(** X17.  A poll for a track the backend does not return answers
    [not_found] with the identifier asked for; it does not throw, and the
    one lookup is the only request. *)
Theorem poll_status_not_found (stringify : Val -> string) (client : CynapsApiClient)
    (contentDomain : string) (params : Obj) (env : Env) (w w1 : list Event) (tracks : Val) :
  query client "sunoma_items" (poll_track_params params) None env w = (Ok tracks, w1) ->
  truthy (opt_first tracks) = false ->
  musicmation_poll_status stringify client contentDomain params env w
  = (Ok (jsonResult stringify
           (VObj [ ("status", VStr "not_found");
                   ("track_id", obj_get params "track_id");
                   ("message", VStr "Track not found") ])),
     w ++ [Fetched (query_request client "sunoma_items" (poll_track_params params) None)]).
Proof.
  intros Hq Hnone.
  assert (Hw1 := query_log client "sunoma_items" (poll_track_params params) None env w).
  rewrite Hq in Hw1. simpl in Hw1. subst w1.
  unfold musicmation_poll_status, try_catch. unfold bind at 1.
  unfold poll_track_params in Hq. rewrite Hq.
  cbv beta iota zeta. rewrite Hnone. reflexivity.
Qed.

Lemma poll_status_not_found_witness :
  musicmation_poll_status to_string sample_client "https://content.7cycle.life"
    [("track_id", VStr "nonexistent")] (scripted [] (json_response 200 (VArr []))) []
  = (Ok (jsonResult to_string
           (VObj [ ("status", VStr "not_found");
                   ("track_id", VStr "nonexistent");
                   ("message", VStr "Track not found") ])),
     [Fetched (query_request sample_client "sunoma_items"
                 (poll_track_params [("track_id", VStr "nonexistent")]) None)]).
Proof.
  apply (poll_status_not_found to_string sample_client "https://content.7cycle.life"
           [("track_id", VStr "nonexistent")] (scripted [] (json_response 200 (VArr []))) []
           [Fetched (query_request sample_client "sunoma_items"
                       (poll_track_params [("track_id", VStr "nonexistent")]) None)]
           (VArr [])); reflexivity.
Defined.




(** ** Deleting a project *)

Lemma try_catch_bind {A B : Type} (m : M A) (k : A -> M B) (h : Thrown -> M B)
    (env : Env) (w : list Event) :
  try_catch (bind m k) h env w
  = match m env w with
    | (Ok a, w1) => try_catch (k a) h env w1
    | (Throw t, w1) => h t env w1
    end.
Proof. unfold try_catch, bind. destruct (m env w) as [[a|t] w1]; reflexivity. Qed.



(** ** The status command *)

(** X20.  The status command never throws: it makes the one preflight
    call, and its text is either the formatted result of that call or, when
    the call fails or the result cannot be formatted, the fixed apology. *)
Theorem status_never_throws (config : Config.CynapsConfig) (env : Env) (w : list Event) :
  let preflight := rpc (new_client config) "preflight" [] None env w in
  exists text,
    status_handler config env w = (Ok text, snd preflight)
    /\ ((exists pf, fst preflight = Ok pf /\ formatStatus pf = Ok text)
        \/ (text = STATUS_UNAVAILABLE
            /\ forall pf, fst preflight = Ok pf -> exists t, formatStatus pf = Throw t)).
Proof.
  intros preflight. unfold status_handler. cbv zeta. rewrite try_catch_bind.
  fold preflight. destruct preflight as [[pf|t] w1]; cbn [fst snd].
  - unfold try_catch, bind, lift. destruct (formatStatus pf) as [text|t] eqn:Hf.
    + exists text. split; [reflexivity|]. left. exists pf. by split.
    + exists STATUS_UNAVAILABLE. split; [reflexivity|]. right. split; [reflexivity|].
      intros pf' H. inversion H; subst. by exists t.
  - exists STATUS_UNAVAILABLE. split; [reflexivity|]. right. split; [reflexivity|].
    discriminate.
Qed.

Example test_formatStatus :
  formatStatus PREFLIGHT_READY
  = Ok (join NEWLINE [ "**Cynaps3 Status**"; ""; "Tier: **paid**"; "API Key: Configured";
                       "Credits: **500**"; "Daily Usage: **3/999**"; ""; "Status: Ready" ])
  /\ formatStatus PREFLIGHT_NOT_READY
     = Ok (join NEWLINE [ "**Cynaps3 Status**"; ""; "Tier: **free**"; "API Key: Missing";
                          "Daily Usage: **0/5**"; ""; "**Issues:**";
                          "- NO_API_KEY: No Suno API key configured";
                          "  Go to Settings > API Keys to add your Suno API key" ])
  /\ formatStatus (VObj [("ready", VBool true)]) = Throw (TError "Cannot read properties of undefined (reading 'tier')").
Proof. repeat split. Qed.

(** ** Creating an item *)

Lemma create_item_body_fold (params : Obj) (generatedId : string) :
  create_item_body params generatedId
  = fold_left (pick_step params) creatableFields
      [ ("id", VStr generatedId);
        ("title", obj_get params "title");
        ("project_id", obj_get params "project_id");
        ("item_type", or_else (obj_get params "item_type") (VStr "track"));
        ("status", or_else (obj_get params "status") (VStr "draft")) ].
Proof. unfold create_item_body, pick_step. reflexivity. Qed.

(** X21.  The create tool sends exactly one request, a POST whose body
    carries the identifier the tool made up itself: a parameter named [id]
    cannot replace it.  Besides the five keys always written, the body holds
    exactly the creatable fields of defined value, with the caller's values.
    When the backend returns no row the tool throws [CREATE_FAILED]. *)
Theorem create_item_request_body (stringify : Val -> string) (client : CynapsApiClient)
    (params : Obj) (env : Env) (w : list Event) :
  let body := create_item_body params (generated_item_id env) in
  let created := query client "sunoma_items" None (create_item_options params env) env w in
  snd (musicmation_create_item stringify client params env w)
  = w ++ [Fetched (query_request client "sunoma_items" None (create_item_options params env))]
  /\ obj_get body "id" = VStr (generated_item_id env)
  /\ (forall k, k ∈ obj_keys body
                <-> k ∈ ITEM_KEYS \/ (k ∈ creatableFields /\ obj_get params k <> VUndef))
  /\ (forall k, k ∈ creatableFields -> obj_get body k = obj_get params k)
  /\ (forall items, fst created = Ok items -> truthy (opt_first items) = false ->
        fst (musicmation_create_item stringify client params env w)
        = Throw (TApi CREATE_ITEM_FAILED)).
Proof.
  intros body created.
  assert (Hlog : snd created
                 = w ++ [Fetched (query_request client "sunoma_items" None
                                    (create_item_options params env))]) by apply query_log.
  assert (Hrun : musicmation_create_item stringify client params env w
                 = match created with
                   | (Ok items, w1) =>
                       if negb (truthy (opt_first items))
                       then (Throw (TApi (wrapError (TApi CREATE_ITEM_FAILED))), w1)
                       else (Ok (jsonResult stringify (VObj
                              [ ("item", opt_first items);
                                ("message", VStr ("Item " +:+ QUOTE
                                   +:+ to_string (obj_get params "title")
                                   +:+ QUOTE +:+ " created successfully.")) ])), w1)
                   | (Throw t, w1) => (Throw (TApi (wrapError t)), w1)
                   end).
  { unfold musicmation_create_item, try_catch.
    unfold bind at 1. unfold Date_now at 1.
    unfold bind at 1. unfold getRandomValues at 1.
    unfold bind at 1.
    change (query client "sunoma_items" None _ env w) with created.
    destruct created as [[items|t] w1]; [|reflexivity].
    cbv beta iota zeta. destruct (truthy (opt_first items)); reflexivity. }
  clearbody created. subst body. rewrite !create_item_body_fold.
  repeat split.
  - rewrite Hrun. destruct created as [[items|t] w1]; simpl in Hlog; subst w1; [|reflexivity].
    destruct (truthy (opt_first items)); reflexivity.
  - rewrite pick_from_get.
    rewrite bool_decide_eq_false_2; [reflexivity|].
    intros Hin. unfold creatableFields in Hin.
    repeat (apply elem_of_cons in Hin as [Hin|Hin]; [discriminate|]).
    by apply elem_of_nil in Hin.
  - rewrite pick_from_keys. intros [H|H]; [left; exact H|right; exact H].
  - rewrite pick_from_keys. intros [H|H]; [left; exact H|right; exact H].
  - intros k Hk. rewrite pick_from_get.
    rewrite bool_decide_eq_true_2 by exact Hk. cbn [andb].
    destruct (is_undefined (obj_get params k)) eqn:Hu; cbn [negb]; [|reflexivity].
    assert (Hundef : obj_get params k = VUndef)
      by (destruct (obj_get params k); by inversion Hu).
    rewrite Hundef.
    unfold creatableFields in Hk.
    repeat (apply elem_of_cons in Hk as [->|Hk]; [reflexivity|]).
    by apply elem_of_nil in Hk.
  - intros items Hi Hno. rewrite Hrun.
    destruct created as [[items'|t] w1]; simpl in Hi; inversion Hi; subst items'.
    rewrite Hno. reflexivity.
Qed.

(** ** Configuration *)

Lemma nonempty_spec (s : option string) :
  nonempty s = true <-> exists s', s = Some s' /\ s' <> "".
Proof.
  destruct s as [s'|]; simpl.
  - rewrite negb_true_iff. split.
    + intros H. exists s'. split; [reflexivity|]. by apply String.eqb_neq.
    + intros (? & [= <-] & H). by apply String.eqb_neq.
  - split; [discriminate|]. by intros (? & ? & _).
Qed.

Lemma getString_nonempty (obj : option Obj) (key : string) :
  getString obj key = None \/ nonempty (getString obj key) = true.
Proof.
  unfold getString. destruct obj as [o|]; [|by left].
  destruct (obj_get o key) as [| | | |val| |]; try (by left).
  destruct val; simpl; [by left|by right].
Qed.

Lemma valid_module_Some (m : Val) (name : string) :
  valid_module m = Some name <-> m = VStr name /\ name ∈ VALID_MODULES.
Proof.
  unfold valid_module. destruct m as [| | | |s| |]; try (split; [discriminate|by intros [? _]]).
  destruct (bool_decide_reflect (s ∈ VALID_MODULES)) as [Hin|Hout]; split.
  - intros [= <-]. by split.
  - by intros [[= <-] _].
  - discriminate.
  - intros [[= <-] ?]. contradiction.
Qed.

Lemma elem_of_valid_modules (ms : list Val) (name : string) :
  name ∈ omap valid_module ms <-> VStr name ∈ ms /\ name ∈ VALID_MODULES.
Proof.
  rewrite list_elem_of_omap. split.
  - intros (m & Hm & Hv). apply valid_module_Some in Hv as [-> ?]. by split.
  - intros [Hm Hv]. exists (VStr name). split; [exact Hm|]. by apply valid_module_Some.
Qed.

(** The modules [parseConfig] enables, as a function of the plugin
    configuration. *)
Lemma parseConfig_modules (URL_valid : string -> bool) (penv : ProcessEnv.t)
    (pluginConfig : option Obj) (c : Parsed.CynapsConfig) :
  parseConfig URL_valid penv pluginConfig = Ok c ->
  Parsed.enabledModules c
  = match omap valid_module
            (match pluginConfig with
             | Some o => match obj_get o "enabledModules" with
                         | VArr ms => ms
                         | _ => [VStr "musicmation"]
                         end
             | None => [VStr "musicmation"]
             end) with
    | [] => ["musicmation"]
    | ms => ms
    end.
Proof.
  unfold parseConfig. cbv zeta.
  repeat match goal with |- context [if negb ?b then _ else _] => destruct b; cbn [negb] end;
    try discriminate.
  intros [= <-]. cbn [Parsed.enabledModules].
  by destruct (omap valid_module _).
Qed.

(** X22.  A configuration that [parseConfig] returns is complete: the four
    required settings are not empty, the URL is one [new URL] accepts, the
    content domain is not empty, and the enabled modules are a non-empty
    list of known module names. *)
Theorem parseConfig_valid (URL_valid : string -> bool) (penv : ProcessEnv.t)
    (pluginConfig : option Obj) (c : Parsed.CynapsConfig) :
  parseConfig URL_valid penv pluginConfig = Ok c ->
  Config.supabaseUrl (Parsed.base c) <> ""
  /\ Config.supabaseAnonKey (Parsed.base c) <> ""
  /\ Config.serviceRoleKey (Parsed.base c) <> ""
  /\ Config.userId (Parsed.base c) <> ""
  /\ URL_valid (Config.supabaseUrl (Parsed.base c)) = true
  /\ Parsed.contentDomain c <> ""
  /\ Config.agentId (Parsed.base c) <> Some ""
  /\ Parsed.enabledModules c <> []
  /\ Forall (fun m => m ∈ VALID_MODULES) (Parsed.enabledModules c).
Proof.
  intros Hparse. pose proof (parseConfig_modules _ _ _ _ Hparse) as Hmods.
  revert Hparse. unfold parseConfig. cbv zeta.
  destruct (nonempty (first_nonempty (getString pluginConfig "supabaseUrl")
                        (ProcessEnv.CYNAPS3_SUPABASE_URL penv))) eqn:Hurl;
    cbn [negb]; [|discriminate].
  destruct (nonempty (first_nonempty (getString pluginConfig "supabaseAnonKey")
                        (ProcessEnv.CYNAPS3_ANON_KEY penv))) eqn:Hanon;
    cbn [negb]; [|discriminate].
  destruct (nonempty (first_nonempty (getString pluginConfig "serviceRoleKey")
                        (ProcessEnv.CYNAPS3_SERVICE_ROLE_KEY penv))) eqn:Hservice;
    cbn [negb]; [|discriminate].
  destruct (nonempty (first_nonempty (getString pluginConfig "userId")
                        (ProcessEnv.CYNAPS3_USER_ID penv))) eqn:Huser;
    cbn [negb]; [|discriminate].
  destruct (URL_valid _) eqn:Hvalid; cbn [negb]; [|discriminate].
  intros [= <-]. cbn [Parsed.base Parsed.contentDomain Parsed.enabledModules
                      Config.supabaseUrl Config.supabaseAnonKey Config.serviceRoleKey
                      Config.userId Config.agentId] in *.
  apply nonempty_spec in Hurl as (url & Hurl & ?), Hanon as (anon & -> & ?),
    Hservice as (service & -> & ?), Huser as (user & -> & ?).
  rewrite Hurl in *.
  repeat split; try assumption.
  - unfold first_nonempty at 1.
    destruct (nonempty (first_nonempty _ _)) eqn:Hcd.
    + apply nonempty_spec in Hcd as (cd & -> & ?). assumption.
    + discriminate.
  - destruct (getString_nonempty pluginConfig "agentId") as [->|Hagent]; [discriminate|].
    apply nonempty_spec in Hagent as (a & -> & ?). congruence.
  - rewrite Hmods. by destruct (omap valid_module _).
  - rewrite Hmods. destruct (omap valid_module _) as [|m ms] eqn:Hms.
    + repeat constructor.
    + rewrite <- Hms. apply Forall_forall. intros name Hname.
      by apply elem_of_valid_modules in Hname as [_ ?].
Qed.

Lemma parseConfig_valid_witness :
  let c := {| Parsed.base :=
                {| Config.supabaseUrl := "https://test-project.supabase.co";
                   Config.supabaseAnonKey := "anon";
                   Config.serviceRoleKey := "service";
                   Config.userId := "user_1";
                   Config.agentId := None |};
              Parsed.contentDomain := "https://content.7cycle.life";
              Parsed.enabledModules := ["storymation"] |} in
  Parsed.enabledModules c <> []
  /\ Forall (fun m => m ∈ VALID_MODULES) (Parsed.enabledModules c).
Proof.
  intros c.
  destruct (parseConfig_valid (fun _ => true)
              {| ProcessEnv.CYNAPS3_SUPABASE_URL := Some "https://test-project.supabase.co";
                 ProcessEnv.CYNAPS3_ANON_KEY := Some "anon";
                 ProcessEnv.CYNAPS3_SERVICE_ROLE_KEY := Some "";
                 ProcessEnv.CYNAPS3_USER_ID := Some "user_1";
                 ProcessEnv.CYNAPS3_CONTENT_DOMAIN := None;
                 ProcessEnv.OPENCLAW_AGENT_ID := None;
                 ProcessEnv.CYNAPS3_AGENT_ID := None |}
              (Some [ ("serviceRoleKey", VStr "service");
                      ("agentId", VStr "");
                      ("enabledModules", VArr [VStr "bogus"; VNum 3; VStr "storymation"]) ])
              c) as (_ & _ & _ & _ & _ & _ & _ & Hne & Hall).
  - reflexivity.
  - split; assumption.
Defined.

(** X23.  When the plugin configuration itself provides the four required
    settings and the content domain, the environment of the process has no
    influence on the result. *)
Theorem parseConfig_ignores_env (URL_valid : string -> bool) (penv penv' : ProcessEnv.t)
    (pluginConfig : Obj) :
  (forall key, key ∈ ["supabaseUrl"; "supabaseAnonKey"; "serviceRoleKey"; "userId";
                      "contentDomain"] ->
               getString (Some pluginConfig) key <> None) ->
  parseConfig URL_valid penv (Some pluginConfig)
  = parseConfig URL_valid penv' (Some pluginConfig).
Proof.
  intros Hall.
  assert (Hfirst : forall key other other',
            key ∈ ["supabaseUrl"; "supabaseAnonKey"; "serviceRoleKey"; "userId";
                   "contentDomain"] ->
            first_nonempty (getString (Some pluginConfig) key) other
            = first_nonempty (getString (Some pluginConfig) key) other').
  { intros key other other' Hkey. unfold first_nonempty.
    destruct (getString_nonempty (Some pluginConfig) key) as [H| ->]; [|reflexivity].
    by apply Hall in H. }
  unfold parseConfig.
  rewrite (Hfirst "supabaseUrl" _ (ProcessEnv.CYNAPS3_SUPABASE_URL penv')) by set_solver.
  rewrite (Hfirst "supabaseAnonKey" _ (ProcessEnv.CYNAPS3_ANON_KEY penv')) by set_solver.
  rewrite (Hfirst "serviceRoleKey" _ (ProcessEnv.CYNAPS3_SERVICE_ROLE_KEY penv'))
    by set_solver.
  rewrite (Hfirst "userId" _ (ProcessEnv.CYNAPS3_USER_ID penv')) by set_solver.
  rewrite (Hfirst "contentDomain" _ (ProcessEnv.CYNAPS3_CONTENT_DOMAIN penv')) by set_solver.
  reflexivity.
Qed.

Lemma parseConfig_ignores_env_witness :
  let pluginConfig :=
    [ ("supabaseUrl", VStr "https://test-project.supabase.co");
      ("supabaseAnonKey", VStr "anon"); ("serviceRoleKey", VStr "service");
      ("userId", VStr "user_1"); ("contentDomain", VStr "https://content.example") ] in
  let empty := {| ProcessEnv.CYNAPS3_SUPABASE_URL := None;
                  ProcessEnv.CYNAPS3_ANON_KEY := None;
                  ProcessEnv.CYNAPS3_SERVICE_ROLE_KEY := None;
                  ProcessEnv.CYNAPS3_USER_ID := None;
                  ProcessEnv.CYNAPS3_CONTENT_DOMAIN := None;
                  ProcessEnv.OPENCLAW_AGENT_ID := None;
                  ProcessEnv.CYNAPS3_AGENT_ID := None |} in
  let other := {| ProcessEnv.CYNAPS3_SUPABASE_URL := Some "https://other.supabase.co";
                  ProcessEnv.CYNAPS3_ANON_KEY := Some "other-anon";
                  ProcessEnv.CYNAPS3_SERVICE_ROLE_KEY := Some "other-service";
                  ProcessEnv.CYNAPS3_USER_ID := Some "user_2";
                  ProcessEnv.CYNAPS3_CONTENT_DOMAIN := Some "https://other.example";
                  ProcessEnv.OPENCLAW_AGENT_ID := Some "agent";
                  ProcessEnv.CYNAPS3_AGENT_ID := None |} in
  parseConfig (fun _ => true) empty (Some pluginConfig)
  = parseConfig (fun _ => true) other (Some pluginConfig).
Proof.
  intros pluginConfig empty other.
  apply (parseConfig_ignores_env (fun _ => true) empty other pluginConfig).
  intros key Hkey. unfold pluginConfig.
  repeat (apply elem_of_cons in Hkey as [->|Hkey]; [discriminate|]).
  by apply elem_of_nil in Hkey.
Defined.

Lemma first_nonempty_present (a b : option string) :
  nonempty (first_nonempty a b) = nonempty (first_present [a; b])
  /\ default "" (first_nonempty a b) = default "" (first_present [a; b]).
Proof.
  unfold first_nonempty. destruct a as [[|c a]|], b as [[|d b]|]; by split.
Qed.

(** X24.  The errors of [parseConfig]: it names the first required setting,
    in the order URL, anon key, service role key, user id, that neither the
    plugin configuration nor the environment provides; with all four
    present it rejects a URL that [new URL] refuses, quoting it, and
    succeeds otherwise. *)
Theorem parseConfig_errors (URL_valid : string -> bool) (penv : ProcessEnv.t)
    (pluginConfig : option Obj) :
  match first_missing (required_settings penv pluginConfig) with
  | Some name =>
      parseConfig URL_valid penv pluginConfig
      = Throw (TError ("Missing required config: " +:+ name))
  | None =>
      exists url,
        first_present [getString pluginConfig "supabaseUrl";
                       ProcessEnv.CYNAPS3_SUPABASE_URL penv] = Some url
        /\ if URL_valid url
           then exists c, parseConfig URL_valid penv pluginConfig = Ok c
                          /\ Config.supabaseUrl (Parsed.base c) = url
           else parseConfig URL_valid penv pluginConfig
                = Throw (TError ("Invalid supabaseUrl: " +:+ url))
  end.
Proof.
  unfold first_missing, required_settings, parseConfig. cbv zeta.
  destruct (first_nonempty_present (getString pluginConfig "supabaseUrl")
              (ProcessEnv.CYNAPS3_SUPABASE_URL penv)) as [-> ->].
  destruct (first_nonempty_present (getString pluginConfig "supabaseAnonKey")
              (ProcessEnv.CYNAPS3_ANON_KEY penv)) as [-> _].
  destruct (first_nonempty_present (getString pluginConfig "serviceRoleKey")
              (ProcessEnv.CYNAPS3_SERVICE_ROLE_KEY penv)) as [-> _].
  destruct (first_nonempty_present (getString pluginConfig "userId")
              (ProcessEnv.CYNAPS3_USER_ID penv)) as [-> _].
  cbn [find fst snd fmap option_fmap option_map].
  destruct (nonempty (first_present [getString pluginConfig "supabaseUrl"; _])) eqn:Hurl;
    cbn [negb fmap option_fmap option_map fst]; [|reflexivity].
  destruct (nonempty (first_present [getString pluginConfig "supabaseAnonKey"; _]));
    cbn [negb fmap option_fmap option_map fst]; [|reflexivity].
  destruct (nonempty (first_present [getString pluginConfig "serviceRoleKey"; _]));
    cbn [negb fmap option_fmap option_map fst]; [|reflexivity].
  destruct (nonempty (first_present [getString pluginConfig "userId"; _]));
    cbn [negb fmap option_fmap option_map fst]; [|reflexivity].
  apply nonempty_spec in Hurl as (url & Hurl & _). rewrite Hurl.
  exists url. split; [reflexivity|]. cbn [default from_option id].
  destruct (URL_valid url); cbn [negb]; [|reflexivity].
  eexists. split; reflexivity.
Qed.

(** ** The tool registry *)

Lemma registered_names (api : Api) :
  concat (all_registered api)
  = concat api
    ++ [ "cynaps3_preflight";
         "musicmation_generate"; "musicmation_bulk_generate"; "musicmation_bulk_poll_status";
         "musicmation_search_tracks"; "musicmation_browse_styles"; "musicmation_library_stats";
         "musicmation_recommend"; "musicmation_get_personas"; "musicmation_get_top_rated";
         "musicmation_browse_influence_groups"; "musicmation_get_influence_group_detail";
         "musicmation_poll_status"; "musicmation_generate_lyrics";
         "musicmation_rate_tracks"; "musicmation_create_album"; "musicmation_set_dramaturgy";
         "musicmation_bulk_rename";
         "musicmation_list_projects"; "musicmation_create_project";
         "musicmation_update_project"; "musicmation_get_project_context";
         "musicmation_set_project_context"; "musicmation_delete_project";
         "musicmation_create_item"; "musicmation_update_item" ].
Proof.
  unfold all_registered, registerMusicmationContentTools, registerMusicmationProjectTools,
    registerMusicmationWriteTools, registerMusicmationLibraryTools,
    registerMusicmationGenerateTool, registerPreflightTool, registerTool.
  rewrite !concat_app, <- !app_assoc. reflexivity.
Qed.

(** X25.  Registration depends on the enabled modules only through whether
    [musicmation] is among them: the preflight tool is always registered,
    first; the five musicmation factories follow, in their fixed order,
    exactly when the module is enabled, however often it is listed and
    whatever else is; and no tool name is registered twice. *)
Theorem registerAllTools_spec (api : Api) (enabledModules : list string) :
  registerAllTools api enabledModules
  = (if bool_decide ("musicmation" ∈ enabledModules)
     then all_registered api else registerPreflightTool api)
  /\ NoDup (concat (registerAllTools [] enabledModules))
  /\ length (concat (registerAllTools [] enabledModules))
     = (if bool_decide ("musicmation" ∈ enabledModules) then 26 else 1)%nat.
Proof.
  assert (Hreg : forall api',
            registerAllTools api' enabledModules
            = if bool_decide ("musicmation" ∈ enabledModules)
              then all_registered api' else registerPreflightTool api').
  { intros api'. unfold registerAllTools, MODULE_TOOLS. cbn [fold_left fst snd].
    destruct (bool_decide ("musicmation" ∈ enabledModules));
      destruct (bool_decide ("storymation" ∈ enabledModules));
      destruct (bool_decide ("skillmation" ∈ enabledModules));
      destruct (bool_decide ("contentmation" ∈ enabledModules)); reflexivity. }
  split; [apply Hreg|]. rewrite Hreg.
  destruct (bool_decide ("musicmation" ∈ enabledModules)).
  - rewrite registered_names. split; [|reflexivity].
    cbn [concat app].
    repeat (apply NoDup_cons; split;
            [intros Hin;
             repeat (apply elem_of_cons in Hin as [Hin|Hin]; [discriminate|]);
             by apply elem_of_nil in Hin|]).
    apply NoDup_nil_2.
  - split; [|reflexivity]. cbn. apply NoDup_singleton.
Qed.

Lemma default_modules : omap valid_module [VStr "musicmation"] = ["musicmation"].
Proof. reflexivity. Qed.

(** X26.  Parsing and registration together: after a successful
    [parseConfig] the musicmation tools are left out only when the plugin
    configuration lists, under [enabledModules], at least one known module
    and not [musicmation]; a missing, empty or wholly unknown list enables
    them. *)
Theorem musicmation_left_out_iff (URL_valid : string -> bool) (penv : ProcessEnv.t)
    (pluginConfig : option Obj) (c : Parsed.CynapsConfig) (api : Api) :
  parseConfig URL_valid penv pluginConfig = Ok c ->
  registerAllTools api (Parsed.enabledModules c) = registerPreflightTool api
  <-> exists o ms,
        pluginConfig = Some o
        /\ obj_get o "enabledModules" = VArr ms
        /\ (VStr "musicmation" ∉ ms)
        /\ exists name, VStr name ∈ ms /\ name ∈ VALID_MODULES.
Proof.
  intros Hparse. apply parseConfig_modules in Hparse as ->.
  assert (Hreg : forall mods,
            registerAllTools api mods = registerPreflightTool api
            <-> ("musicmation" ∉ mods)).
  { intros mods.
    assert (H : registerAllTools api mods
                = if bool_decide ("musicmation" ∈ mods)
                  then all_registered api else registerPreflightTool api).
    { unfold registerAllTools, MODULE_TOOLS. cbn [fold_left fst snd].
      destruct (bool_decide ("musicmation" ∈ mods));
        destruct (bool_decide ("storymation" ∈ mods));
        destruct (bool_decide ("skillmation" ∈ mods));
        destruct (bool_decide ("contentmation" ∈ mods)); reflexivity. }
    rewrite H. destruct (bool_decide_reflect ("musicmation" ∈ mods)) as [Hin|Hout].
    - split; [|contradiction]. intros Heq.
      apply (f_equal (fun a => length (concat a))) in Heq.
      rewrite registered_names in Heq.
      unfold registerPreflightTool, registerTool in Heq.
      rewrite concat_app, !length_app in Heq. simpl in Heq. lia.
    - split; [by intros _|reflexivity]. }
  rewrite Hreg.
  destruct pluginConfig as [o|];
    [destruct (obj_get o "enabledModules") as [| |b|q|s|ms|o'] eqn:Hget|]; cbv iota;
    try (rewrite default_modules; split;
         [intros Hno; exfalso; apply Hno; by left
         |intros (o'' & ms' & Heq & Hget' & _); congruence]).
  destruct (omap valid_module ms) as [|m rest] eqn:Hms.
  - split; [intros Hno; exfalso; apply Hno; by left|].
    intros (o' & ms' & [= <-] & Hget' & _ & name & Hname & Hvalid).
    assert (ms' = ms) as -> by congruence.
    assert (Hin : name ∈ omap valid_module ms) by (by apply elem_of_valid_modules).
    rewrite Hms in Hin. by apply elem_of_nil in Hin.
  - rewrite <- Hms. split.
    + intros Hno. exists o, ms. split; [reflexivity|]. split; [exact Hget|]. split.
      * intros Hin. apply Hno. apply elem_of_valid_modules. split; [exact Hin|by left].
      * assert (Hm : m ∈ omap valid_module ms) by (rewrite Hms; by left).
        apply elem_of_valid_modules in Hm. by exists m.
    + intros (o' & ms' & [= <-] & Hget' & Hno & _) Hin.
      assert (ms' = ms) as -> by congruence.
      by apply elem_of_valid_modules in Hin as [? _].
Qed.

Lemma musicmation_left_out_iff_witness :
  let pluginConfig :=
    [ ("supabaseUrl", VStr "https://test-project.supabase.co");
      ("supabaseAnonKey", VStr "anon"); ("serviceRoleKey", VStr "service");
      ("userId", VStr "user_1");
      ("enabledModules", VArr [VStr "storymation"; VStr "bogus"]) ] in
  let penv := {| ProcessEnv.CYNAPS3_SUPABASE_URL := None;
                 ProcessEnv.CYNAPS3_ANON_KEY := None;
                 ProcessEnv.CYNAPS3_SERVICE_ROLE_KEY := None;
                 ProcessEnv.CYNAPS3_USER_ID := None;
                 ProcessEnv.CYNAPS3_CONTENT_DOMAIN := None;
                 ProcessEnv.OPENCLAW_AGENT_ID := None;
                 ProcessEnv.CYNAPS3_AGENT_ID := None |} in
  exists c,
    parseConfig (fun _ => true) penv (Some pluginConfig) = Ok c
    /\ (registerAllTools [] (Parsed.enabledModules c) = registerPreflightTool []
        <-> exists o ms,
              Some pluginConfig = Some o
              /\ obj_get o "enabledModules" = VArr ms
              /\ (VStr "musicmation" ∉ ms)
              /\ exists name, VStr name ∈ ms /\ name ∈ VALID_MODULES).
Proof.
  intros pluginConfig penv. eexists. split; [reflexivity|].
  apply (musicmation_left_out_iff (fun _ => true) penv (Some pluginConfig)).
  reflexivity.
Defined.

(** X28.  For an allow-list that names no property of [Object.prototype],
    [pick] is [pick] on the own properties, and its output has as key set
    exactly the allow-list intersected with the input's keys of defined
    value; a key outside the allow-list never appears, whatever its value;
    allow-listed values are copied verbatim, so an explicit [null] is kept;
    and on the store, the result is a newly allocated object while every
    object allocated before, the input among them, is left as it was. *)
Theorem pick_plain_spec (st : list Obj) (l : nat) (obj : Obj) (keys : list string) :
  st !! l = Some obj ->
  Forall (fun k => k ∉ Proto.MEMBERS) keys ->
  Proto.pick obj keys = Some (Proto.plain (pick obj keys))
  /\ key_set (pick obj keys) = list_to_set keys ∩ defined_keys obj
  /\ (forall k, k ∉ keys -> k ∉ obj_keys (pick obj keys))
  /\ (forall k, k ∈ keys -> obj_get (pick obj keys) k = obj_get obj k)
  /\ (forall k, k ∈ keys -> obj_get obj k = VNull ->
        k ∈ obj_keys (pick obj keys) /\ obj_get (pick obj keys) k = VNull)
  /\ Store.pick st l keys = (st ++ [pick obj keys], length st)
  /\ st !! snd (Store.pick st l keys) = None
  /\ (forall l' o, st !! l' = Some o -> fst (Store.pick st l keys) !! l' = Some o).
Proof.
  intros Hl Hplain.
  assert (Hst : Store.pick st l keys = (st ++ [pick obj keys], length st)).
  { unfold Store.pick. f_equal.
    rewrite (pick_loop_spec _ _ _ _ obj []).
    - unfold pick. apply list_eq. intros i.
      destruct (decide (i = length st)) as [->|Hi].
      + rewrite list_lookup_insert_eq by (rewrite length_app; simpl; lia).
        by rewrite lookup_app_r, Nat.sub_diag.
      + rewrite list_lookup_insert_ne by done.
        destruct (decide (i < length st)) as [Hlt|Hge].
        * by rewrite !lookup_app_l.
        * rewrite !lookup_ge_None_2; [reflexivity| |]; rewrite length_app; simpl; lia.
    - rewrite lookup_app_l; [exact Hl|]. by eapply lookup_lt_Some.
    - by rewrite lookup_app_r, Nat.sub_diag.
    - apply lookup_lt_Some in Hl. lia. }
  split; [by apply pick_plain|].
  repeat split.
  - apply set_eq. intros k. unfold key_set.
    rewrite elem_of_list_to_set, pick_keys, elem_of_intersection,
      elem_of_list_to_set, elem_of_defined_keys. reflexivity.
  - intros k Hk Hin. apply pick_keys in Hin. tauto.
  - intros k Hk. by apply pick_get_allowed.
  - apply pick_keys. split; [assumption|congruence].
  - rewrite pick_get_allowed; assumption.
  - exact Hst.
  - rewrite Hst. simpl. by apply lookup_ge_None_2.
  - intros l' o Hl'. rewrite Hst. simpl. rewrite lookup_app_l; [exact Hl'|].
    by eapply lookup_lt_Some.
Qed.

Lemma pick_plain_spec_witness :
  let obj := [("mood", VNull); ("genre", VStr "rock"); ("evil", VNum 1); ("gone", VUndef);
              ("constructor", VStr "attack")] in
  let keys := ["mood"; "genre"; "gone"; "energy"] in
  Proto.pick obj keys = Some (Proto.plain [("mood", VNull); ("genre", VStr "rock")])
  /\ Store.pick [obj] 0 keys = ([obj; [("mood", VNull); ("genre", VStr "rock")]], 1).
Proof.
  intros obj keys.
  destruct (pick_plain_spec [obj] 0 obj keys) as (Hfull & _ & _ & _ & _ & Hstore & _).
  - reflexivity.
  - unfold keys. repeat constructor; intros Hin;
      repeat (apply elem_of_cons in Hin as [Hin|Hin]; [discriminate|]);
      by apply elem_of_nil in Hin.
  - split; [exact Hfull|exact Hstore].
Defined.
